(** * inner_monologue: a verification model of [main.py] and [kimi_api.py]

    The batch job prompts a hosted language model twice per affirmation
    sentence (draft, then critique), keeps a checkpoint of finished row
    indexes, and writes an output table and a failure table.

    Layout of this development:
    - [Text]      Python [str] values as lists of code points, with the
                  built-ins the program calls ([strip], [replace], [split],
                  [join], [str], [int]);
    - [Regex]     the fragment of [re] needed for the brace pattern;
    - [Values]    Python objects produced by [json.loads], exceptions, dicts;
    - [JsonRef]   reference instances of the library functions, used to
                  run the program on concrete replies;
    - worker code as a free monad over API requests and log records:
      [send_messages], [extract_json], [process_sentence];
    - section [Program]: the world (files, log, requests), the checkpoint
      store, the thread pool as a transition system driven by a
      schedule, [process_sentences_concurrently], [save_results], the
      interactive menu [main], and the theorems;
    - the theorems at concrete inputs. *)

From Stdlib Require Import ZArith NArith Lia List Ascii DecimalN DecimalPos DecimalFacts SpecFloat.
From stdpp Require Import base option list gmap sets strings.

Set Warnings "-register-all".
Local Open Scope N_scope.

(** ** Text *)

Module Text.

(** A Python [str] is a sequence of Unicode code points. *)
Abbreviation pystr := (list N).

(** String literals of the Python source are UTF-8 in the file; [py] decodes
    a literal to its code points. *)
Fixpoint utf8_decode (need : nat) (acc : N) (bs : list N) : pystr :=
  match bs with
  | [] => []
  | b :: bs' =>
      match need with
      | O =>
          if b <? 128 then b :: utf8_decode 0 0 bs'
          else if b <? 224 then utf8_decode 1 (b - 192) bs'
          else if b <? 240 then utf8_decode 2 (b - 224) bs'
          else utf8_decode 3 (b - 240) bs'
      | S k =>
          let acc' := acc * 64 + b mod 64 in
          match k with
          | O => acc' :: utf8_decode 0 0 bs'
          | S _ => utf8_decode k acc' bs'
          end
      end
  end.

Definition py (s : string) : pystr :=
  utf8_decode 0 0 (map N_of_ascii (String.list_ascii_of_string s)).

Definition NEWLINE : N := 10.
Definition BACKSLASH : N := 92.
Definition QUOTE : N := 34.
Definition LBRACE : N := 123.
Definition RBRACE : N := 125.

(** [str.isspace] for one code point (CPython's [_PyUnicode_IsWhitespace]). *)
Definition isspace (c : N) : bool :=
  ((9 <=? c) && (c <=? 13)) || ((28 <=? c) && (c <=? 32))
  || (c =? 133) || (c =? 160) || (c =? 5760)
  || ((8192 <=? c) && (c <=? 8202))
  || (c =? 8232) || (c =? 8233) || (c =? 8239) || (c =? 8287) || (c =? 12288).

Fixpoint lstrip (s : pystr) : pystr :=
  match s with
  | [] => []
  | c :: s' => if isspace c then lstrip s' else s
  end.

Definition rstrip (s : pystr) : pystr := rev (lstrip (rev s)).

(** [s.strip()] *)
Definition strip (s : pystr) : pystr := rstrip (lstrip s).

(** [s.startswith(p)] *)
Fixpoint startswith (p s : pystr) : bool :=
  match p, s with
  | [], _ => true
  | a :: p', b :: s' => (a =? b) && startswith p' s'
  | _ :: _, [] => false
  end.

(** [s.replace(old, new)]: non-overlapping occurrences, left to right.
    [skip] counts the characters of a matched occurrence still to be
    passed over. *)
Fixpoint replace_from (old new : pystr) (skip : nat) (s : pystr) : pystr :=
  match s with
  | [] => []
  | c :: s' =>
      match skip with
      | S k => replace_from old new k s'
      | O =>
          if startswith old s
          then new ++ replace_from old new (pred (length old)) s'
          else c :: replace_from old new 0 s'
      end
  end.

Definition replace (old new s : pystr) : pystr :=
  match old with
  | [] => new ++ flat_map (fun c => c :: new) s
  | _ :: _ => replace_from old new 0 s
  end.

(** [sep.join(parts)] *)
Fixpoint join (sep : pystr) (parts : list pystr) : pystr :=
  match parts with
  | [] => []
  | [p] => p
  | p :: rest => p ++ sep ++ join sep rest
  end.

(** [s.split(sep)] for a non-empty separator; [cur] is the field being
    read, most recent character first. *)
Fixpoint split_from (sep : pystr) (skip : nat) (cur : pystr) (s : pystr)
  : list pystr :=
  match s with
  | [] => [rev cur]
  | c :: s' =>
      match skip with
      | S k => split_from sep k cur s'
      | O =>
          if startswith sep s
          then rev cur :: split_from sep (pred (length sep)) [] s'
          else split_from sep 0 (c :: cur) s'
      end
  end.

Definition split (sep s : pystr) : list pystr := split_from sep 0 [] s.

(** Decimal digits. *)
Fixpoint uint_codes (u : Decimal.uint) : pystr :=
  match u with
  | Decimal.Nil => []
  | Decimal.D0 u => 48 :: uint_codes u
  | Decimal.D1 u => 49 :: uint_codes u
  | Decimal.D2 u => 50 :: uint_codes u
  | Decimal.D3 u => 51 :: uint_codes u
  | Decimal.D4 u => 52 :: uint_codes u
  | Decimal.D5 u => 53 :: uint_codes u
  | Decimal.D6 u => 54 :: uint_codes u
  | Decimal.D7 u => 55 :: uint_codes u
  | Decimal.D8 u => 56 :: uint_codes u
  | Decimal.D9 u => 57 :: uint_codes u
  end.

Definition digit_of (c : N) : option (Decimal.uint -> Decimal.uint) :=
  if c =? 48 then Some Decimal.D0 else if c =? 49 then Some Decimal.D1
  else if c =? 50 then Some Decimal.D2 else if c =? 51 then Some Decimal.D3
  else if c =? 52 then Some Decimal.D4 else if c =? 53 then Some Decimal.D5
  else if c =? 54 then Some Decimal.D6 else if c =? 55 then Some Decimal.D7
  else if c =? 56 then Some Decimal.D8 else if c =? 57 then Some Decimal.D9
  else None.

(** [str(n)] for an [int]. *)
Definition py_str_int (z : Z) : pystr :=
  match z with
  | Z0 => [48]
  | Zpos p => uint_codes (Pos.to_uint p)
  | Zneg p => 45 :: uint_codes (Pos.to_uint p)
  end.

(** The digit part of an [int] literal: one or more digits, single
    underscores allowed between digits. *)
Fixpoint parse_digits (s : pystr) : option Decimal.uint :=
  match s with
  | [] => None
  | c :: s' =>
      match digit_of c with
      | None => None
      | Some d =>
          match s' with
          | [] => Some (d Decimal.Nil)
          | c' :: s'' =>
              if c' =? 95 then d <$> parse_digits s''
              else d <$> parse_digits s'
          end
      end
  end.

(** [int(s)] on a [str], base 10: surrounding whitespace, an optional
    sign, then digits.  [None] stands for [ValueError].  (Decimal digits
    outside ASCII, which [int] also accepts, are not in this table.) *)
Definition py_int (s : pystr) : option Z :=
  let t := strip s in
  match t with
  | [] => None
  | c :: r =>
      if c =? 45 then (fun u => (- Z.of_N (N.of_uint u))%Z) <$> parse_digits r
      else if c =? 43 then (fun u => Z.of_N (N.of_uint u)) <$> parse_digits r
      else (fun u => Z.of_N (N.of_uint u)) <$> parse_digits t
  end.

End Text.

Import Text.

(** ** Regular expressions *)

Module Regex.

(** The fragment of [re] used by the program: literal characters, [.]
    under [re.DOTALL] (any code point, newline included), and greedy
    repetition of one of those. *)
Inductive atom := Lit (c : N) | AnyChar.
Inductive item := One (a : atom) | Star (a : atom).
Definition regex := list item.

Definition atom_matches (a : atom) (c : N) : bool :=
  match a with
  | Lit d => c =? d
  | AnyChar => true
  end.

(** Backtracking match anchored at the head of [s]; the result is the
    length of the first match in priority order.  A greedy star takes the
    longest repetition first and gives characters back one at a time. *)
Fixpoint match_here (r : regex) (s : pystr) : option nat :=
  match r with
  | [] => Some O
  | One a :: r' =>
      match s with
      | c :: s' => if atom_matches a c then S <$> match_here r' s' else None
      | [] => None
      end
  | Star a :: r' =>
      (fix star (s : pystr) : option nat :=
         match s with
         | c :: s' =>
             if atom_matches a c
             then match star s' with
                  | Some n => Some (S n)
                  | None => match_here r' s
                  end
             else match_here r' s
         | [] => match_here r' []
         end) s
  end.

(** [re.search]: the leftmost position at which the pattern matches;
    the result is [match.group(0)]. *)
Fixpoint search (r : regex) (s : pystr) : option pystr :=
  match match_here r s with
  | Some n => Some (take n s)
  | None =>
      match s with
      | [] => None
      | _ :: s' => search r s'
      end
  end.

(** [r'\{.*\}'] compiled with [re.DOTALL]. *)
Definition BRACES : regex := [One (Lit LBRACE); Star AnyChar; One (Lit RBRACE)].

(** What the specification says the pattern finds: the text from the
    first opening brace to the last closing brace after it. *)
Fixpoint from_first (c : N) (s : pystr) : option pystr :=
  match s with
  | [] => None
  | x :: s' => if x =? c then Some s else from_first c s'
  end.

Definition upto_last (c : N) (s : pystr) : option pystr :=
  (fun t => rev t) <$> from_first c (rev s).

Definition outermost_braces (s : pystr) : option pystr :=
  match from_first LBRACE s with
  | Some (b :: t) => (fun m => b :: m) <$> upto_last RBRACE t
  | _ => None
  end.

End Regex.

Import Regex.

(** ** Python values *)

Module Values.

(** Exceptions: instances of Python's [Exception] class, which is what
    [except Exception] matches.  [exn_str e] is [str(e)]. *)
Inductive exn_class :=
| JSONDecodeError
| ValueError
| TypeError
| KeyError
| IndexError
| AttributeError
| OtherException (name : pystr).

Record exn := Exn { exn_class_of : exn_class; exn_str : pystr }.

Definition is_JSONDecodeError (e : exn) : bool :=
  match exn_class_of e with
  | JSONDecodeError => true
  | _ => false
  end.

(** The result of a call that may raise. *)
Inductive outcome (A : Type) : Type :=
| Ok (a : A)
| Raise (e : exn).
Arguments Ok {A} a.
Arguments Raise {A} e.

#[global] Instance outcome_ret : MRet outcome := fun A a => Ok a.
#[global] Instance outcome_bind : MBind outcome := fun A B f m =>
  match m with
  | Ok a => f a
  | Raise e => Raise e
  end.
#[global] Instance outcome_fmap : FMap outcome := fun A B f m =>
  match m with
  | Ok a => Ok (f a)
  | Raise e => Raise e
  end.

(** The objects [json.loads] produces.  A [dict] keeps its keys in
    insertion order. *)
Inductive pyvalue :=
| VNone
| VBool (b : bool)
| VInt (z : Z)
| VFloat (f : spec_float)
| VStr (s : pystr)
| VList (l : list pyvalue)
| VDict (d : list (pystr * pyvalue)).

Definition dict := list (pystr * pyvalue).

Definition str_eqb (a b : pystr) : bool := bool_decide (a = b).

(** [bool(v)] *)
Definition truthy (v : pyvalue) : bool :=
  match v with
  | VNone => false
  | VBool b => b
  | VInt z => negb (z =? 0)%Z
  | VFloat (S754_zero _) => false
  | VFloat _ => true
  | VStr s => negb (bool_decide (s = []))
  | VList l => match l with [] => false | _ :: _ => true end
  | VDict d => match d with [] => false | _ :: _ => true end
  end.

(** [k in d] and [d[k]] for a dict. *)
Definition dict_has (k : pystr) (d : dict) : bool :=
  existsb (fun kv => str_eqb k kv.1) d.

Fixpoint dict_get (k : pystr) (d : dict) : option pyvalue :=
  match d with
  | [] => None
  | (k', v) :: d' => if str_eqb k k' then Some v else dict_get k d'
  end.

(** [d[k] = v]: an existing key keeps its position. *)
Fixpoint dict_set (k : pystr) (v : pyvalue) (d : dict) : dict :=
  match d with
  | [] => [(k, v)]
  | (k', v') :: d' =>
      if str_eqb k k' then (k', v) :: d' else (k', v') :: dict_set k v d'
  end.

(** [k in s] for two strings. *)
Fixpoint str_contains (k s : pystr) : bool :=
  startswith k s ||
  match s with
  | [] => false
  | _ :: s' => str_contains k s'
  end.

(** [k in v] with [k] a string. *)
Definition py_in (k : pystr) (v : pyvalue) : outcome bool :=
  match v with
  | VDict d => Ok (dict_has k d)
  | VList l =>
      Ok (existsb (fun x => match x with VStr s => str_eqb s k | _ => false end) l)
  | VStr s => Ok (str_contains k s)
  | _ => Raise (Exn TypeError (py "argument is not iterable"))
  end.

(** [v[k]] with [k] a string. *)
Definition py_getitem (v : pyvalue) (k : pystr) : outcome pyvalue :=
  match v with
  | VDict d =>
      match dict_get k d with
      | Some x => Ok x
      | None => Raise (Exn KeyError ([39] ++ k ++ [39]))
      end
  | VStr _ => Raise (Exn TypeError (py "string indices must be integers"))
  | VList _ => Raise (Exn TypeError (py "list indices must be integers or slices, not str"))
  | _ => Raise (Exn TypeError (py "object is not subscriptable"))
  end.

(** [xs[k]] on a list with an [int] index: negative indexes count from
    the end. *)
Definition list_getitem {A} (xs : list A) (k : Z) : outcome A :=
  let n := Z.of_nat (length xs) in
  let k' := if (k <? 0)%Z then (k + n)%Z else k in
  if (k' <? 0)%Z then Raise (Exn IndexError (py "list index out of range"))
  else match xs !! Z.to_nat k' with
       | Some x => Ok x
       | None => Raise (Exn IndexError (py "list index out of range"))
       end.

End Values.

Import Values.

(** ** Reference instances of the library functions

    The theorems below hold for every behaviour of [json.loads]; the
    decoder here is the instance used to run the program on concrete
    replies.  It follows the [json] module's scanner on JSON texts whose
    numbers are integers, with shortened error messages; a number with a
    fraction or an exponent is reported as unsupported. *)

Module JsonRef.

Definition decode_error (msg : string) : exn := Exn JSONDecodeError (py msg).

Definition unsupported : exn :=
  Exn (OtherException (py "NotImplementedError")) (py "float literal").

Definition is_ws (c : N) : bool :=
  (c =? 32) || (c =? 9) || (c =? 10) || (c =? 13).

Fixpoint skip_ws (s : pystr) : pystr :=
  match s with
  | [] => []
  | c :: s' => if is_ws c then skip_ws s' else s
  end.

Definition is_digit (c : N) : bool := (48 <=? c) && (c <=? 57).

Definition hex_of (c : N) : option N :=
  if is_digit c then Some (c - 48)
  else if (97 <=? c) && (c <=? 102) then Some (c - 87)
  else if (65 <=? c) && (c <=? 70) then Some (c - 55)
  else None.

Definition hex4 (s : pystr) : option (N * pystr) :=
  match s with
  | a :: b :: c :: d :: r =>
      x ← hex_of a; y ← hex_of b; z ← hex_of c; w ← hex_of d;
      Some (((x * 16 + y) * 16 + z) * 16 + w, r)
  | _ => None
  end.

Definition simple_escape (e : N) : option N :=
  if e =? QUOTE then Some QUOTE
  else if e =? BACKSLASH then Some BACKSLASH
  else if e =? 47 then Some 47
  else if e =? 98 then Some 8
  else if e =? 102 then Some 12
  else if e =? 110 then Some NEWLINE
  else if e =? 114 then Some 13
  else if e =? 116 then Some 9
  else None.

(** The body of a string literal, after its opening quote. *)
Fixpoint scanstring (fuel : nat) (acc : pystr) (s : pystr)
  : option (pystr * pystr) :=
  match fuel with
  | O => None
  | S fuel =>
      match s with
      | [] => None
      | c :: r =>
          if c =? QUOTE then Some (rev acc, r)
          else if c <? 32 then None
          else if negb (c =? BACKSLASH) then scanstring fuel (c :: acc) r
          else
            match r with
            | [] => None
            | e :: r1 =>
                if negb (e =? 117) then
                  x ← simple_escape e; scanstring fuel (x :: acc) r1
                else
                  '(u, r2) ← hex4 r1;
                  match r2 with
                  | b :: e2 :: r3 =>
                      if (55296 <=? u) && (u <=? 56319)
                         && (b =? BACKSLASH) && (e2 =? 117)
                      then
                        '(u2, r4) ← hex4 r3;
                        if (56320 <=? u2) && (u2 <=? 57343)
                        then scanstring fuel
                               (65536 + ((u - 55296) * 1024 + (u2 - 56320)) :: acc) r4
                        else scanstring fuel (u :: acc) r2
                      else scanstring fuel (u :: acc) r2
                  | _ => scanstring fuel (u :: acc) r2
                  end
            end
      end
  end.

Fixpoint span_digits (s : pystr) : pystr * pystr :=
  match s with
  | c :: s' =>
      if is_digit c then let '(d, r) := span_digits s' in (c :: d, r)
      else ([], s)
  | [] => ([], [])
  end.

(** Does a fraction or an exponent follow the integer part? *)
Definition float_follows (s : pystr) : bool :=
  match s with
  | c :: d :: r =>
      if c =? 46 then is_digit d
      else if (c =? 101) || (c =? 69) then
        is_digit d ||
        (((d =? 43) || (d =? 45)) && match r with x :: _ => is_digit x | [] => false end)
      else false
  | _ => false
  end.

(** The integer part of a number: an optional minus sign, then a single
    zero or a non-zero digit followed by digits. *)
Definition scan_int (s : pystr) : option (pystr * pystr) :=
  let '(sign, body) :=
    match s with
    | c :: r => if c =? 45 then ([45], r) else ([], s)
    | [] => ([], [])
    end in
  match body with
  | c :: r =>
      if c =? 48 then Some (sign ++ [48], r)
      else if is_digit c then
        let '(d, r') := span_digits body in Some (sign ++ d, r')
      else None
  | [] => None
  end.

Definition strip_prefix (p s : pystr) : option pystr :=
  if startswith p s then Some (drop (length p) s) else None.

Inductive mode :=
| MValue
| MMembers (acc : dict)
| MElements (acc : list pyvalue).

Definition expecting {A} (msg : string) (o : option A) : outcome A :=
  match o with
  | Some a => Ok a
  | None => Raise (decode_error msg)
  end.

Fixpoint scan (fuel : nat) (m : mode) (s : pystr) : outcome (pyvalue * pystr) :=
  match fuel with
  | O => Raise (decode_error "Expecting value")
  | S fuel =>
      match m with
      | MValue =>
          match s with
          | [] => Raise (decode_error "Expecting value")
          | c :: r =>
              if c =? QUOTE then
                '(str, r') ← expecting "Unterminated string" (scanstring (length r) [] r);
                Ok (VStr str, r')
              else if c =? LBRACE then
                match skip_ws r with
                | c1 :: r1 =>
                    if c1 =? RBRACE then Ok (VDict [], r1)
                    else scan fuel (MMembers []) (c1 :: r1)
                | [] => Raise (decode_error "Expecting property name")
                end
              else if c =? 91 then
                match skip_ws r with
                | c1 :: r1 =>
                    if c1 =? 93 then Ok (VList [], r1)
                    else scan fuel (MElements []) (c1 :: r1)
                | [] => Raise (decode_error "Expecting value")
                end
              else if startswith (py "null") s then Ok (VNone, drop 4 s)
              else if startswith (py "true") s then Ok (VBool true, drop 4 s)
              else if startswith (py "false") s then Ok (VBool false, drop 5 s)
              else if startswith (py "NaN") s then Ok (VFloat S754_nan, drop 3 s)
              else if startswith (py "Infinity") s
                   then Ok (VFloat (S754_infinity false), drop 8 s)
              else if startswith (py "-Infinity") s
                   then Ok (VFloat (S754_infinity true), drop 9 s)
              else
                '(lit, r') ← expecting "Expecting value" (scan_int s);
                if float_follows r' then Raise unsupported
                else z ← expecting "Expecting value" (py_int lit); Ok (VInt z, r')
          end
      | MMembers acc =>
          match s with
          | c :: r =>
              if c =? QUOTE then
                '(key, r1) ← expecting "Unterminated string" (scanstring (length r) [] r);
                r2 ← expecting "Expecting ':' delimiter" (strip_prefix [58] (skip_ws r1));
                '(v, r3) ← scan fuel MValue (skip_ws r2);
                let acc' := dict_set key v acc in
                match skip_ws r3 with
                | c4 :: r4 =>
                    if c4 =? RBRACE then Ok (VDict acc', r4)
                    else if c4 =? 44 then scan fuel (MMembers acc') (skip_ws r4)
                    else Raise (decode_error "Expecting ',' delimiter")
                | [] => Raise (decode_error "Expecting ',' delimiter")
                end
              else Raise (decode_error "Expecting property name")
          | [] => Raise (decode_error "Expecting property name")
          end
      | MElements acc =>
          '(v, r1) ← scan fuel MValue s;
          let acc' := acc ++ [v] in
          match skip_ws r1 with
          | c2 :: r2 =>
              if c2 =? 93 then Ok (VList acc', r2)
              else if c2 =? 44 then scan fuel (MElements acc') (skip_ws r2)
              else Raise (decode_error "Expecting ',' delimiter")
          | [] => Raise (decode_error "Expecting ',' delimiter")
          end
      end
  end.

(** [json.loads(s)] for a [str]. *)
Definition json_loads_ref (s : pystr) : outcome pyvalue :=
  if startswith [65279] s then Raise (decode_error "Unexpected UTF-8 BOM")
  else
    '(v, r) ← scan (2 * length s + 2) MValue (skip_ws s);
    match skip_ws r with
    | [] => Ok v
    | _ :: _ => Raise (decode_error "Extra data")
    end.

(** The decoder under the interpreter's recursion limit.  CPython's
    decoder descends one level per nested array or object and raises
    [RecursionError] when the nesting passes the limit, 1000 unless it
    has been changed; [nesting] is the deepest level a text reaches,
    brackets inside string literals not counted. *)
Definition RECURSION_LIMIT : nat := 1000.

Fixpoint nesting (depth deepest : nat) (in_string escaped : bool) (s : pystr) : nat :=
  match s with
  | [] => deepest
  | c :: rest =>
      if in_string then
        if escaped then nesting depth deepest true false rest
        else if c =? BACKSLASH then nesting depth deepest true true rest
        else if c =? QUOTE then nesting depth deepest false false rest
        else nesting depth deepest true false rest
      else if c =? QUOTE then nesting depth deepest true false rest
      else if (c =? LBRACE) || (c =? 91) then
        nesting (S depth) (Nat.max deepest (S depth)) false false rest
      else if (c =? RBRACE) || (c =? 93) then
        nesting (Nat.pred depth) deepest false false rest
      else nesting depth deepest false false rest
  end.

Definition recursion_error : exn :=
  Exn (OtherException (py "RecursionError"))
      (py "maximum recursion depth exceeded while decoding a JSON array from a unicode string").

Definition json_loads_limited (s : pystr) : outcome pyvalue :=
  if (RECURSION_LIMIT <? nesting 0 0 false false s)%nat then Raise recursion_error
  else json_loads_ref s.

(** JSON text of a one-field object with a string value, as the model
    is asked to reply; [body] is the text between the quotes. *)
Definition reply_object (field body : pystr) : pystr :=
  [LBRACE; QUOTE] ++ field ++ [QUOTE; 58; QUOTE] ++ body ++ [QUOTE; RBRACE].

(** Reference instances of the other library functions, used to run
    the program on concrete inputs: the text of an object that is not a
    string (scalars only; containers print as an ellipsis), and a CSV
    layout without quoting (a header line, then one line per row). *)
Definition py_repr_ref (v : pyvalue) : pystr :=
  match v with
  | VNone => py "None"
  | VBool true => py "True"
  | VBool false => py "False"
  | VInt z => py_str_int z
  | VStr s => s
  | _ => py "..."
  end.

Definition csv_line (cells : list pystr) : pystr := join (py ",") cells ++ [NEWLINE].

Definition to_csv_ref (rows : list pyvalue) : pystr :=
  match rows with
  | VDict d :: _ =>
      csv_line (map fst d)
      ++ flat_map (fun row =>
           match row with
           | VDict cells => csv_line (map (fun kv => py_repr_ref kv.2) cells)
           | _ => csv_line []
           end) rows
  | _ => [NEWLINE]
  end.

Definition read_csv_ref (text : pystr) : outcome (list pyvalue) :=
  match split [NEWLINE] text with
  | header :: body =>
      if bool_decide (strip text = [])
      then Raise (Exn (OtherException (py "EmptyDataError")) (py "No columns to parse from file"))
      else
        let columns := split (py ",") header in
        Ok (map (fun line =>
                   VDict (zip columns (map VStr (split (py ",") line))))
                (filter (fun line => line <> []) body))
  | [] => Raise (Exn (OtherException (py "EmptyDataError")) (py "No columns to parse from file"))
  end.


End JsonRef.

Import JsonRef.

(** ** Effects of the worker code

    A task is the code one worker thread runs for one sentence.  Its
    effects are requests to the chat-completion API, whose answer comes
    from outside, and records handed to [logging]. *)

Record message := Message { role : pystr; content : pystr }.

(** What [client.chat.completions.create] gives back: the contents of
    [completion.choices[i].message.content] (each a [str] or [None]), or
    an exception. *)
Definition api_reply := outcome (list (option pystr)).

Inductive level := INFO | WARNING | ERROR.
Definition log_record : Type := level * pystr.

Inductive task (A : Type) : Type :=
| Ret (a : A)
| Throw (e : exn)
| Create (messages : list message) (k : api_reply -> task A)
| Log (r : log_record) (k : task A).
Arguments Ret {A} a.
Arguments Throw {A} e.
Arguments Create {A} messages k.
Arguments Log {A} r k.

Fixpoint task_bind {A B} (f : A -> task B) (t : task A) : task B :=
  match t with
  | Ret a => f a
  | Throw e => Throw e
  | Create m k => Create m (fun r => task_bind f (k r))
  | Log r k => Log r (task_bind f k)
  end.

#[global] Instance task_ret : MRet task := fun A a => Ret a.
#[global] Instance task_mbind : MBind task := fun A B f t => task_bind f t.

(** [try: t except Exception as e: handler(e)] *)
Fixpoint try_except {A} (t : task A) (handler : exn -> task A) : task A :=
  match t with
  | Ret a => Ret a
  | Throw e => handler e
  | Create m k => Create m (fun r => try_except (k r) handler)
  | Log r k => Log r (try_except k handler)
  end.

Definition logging (l : level) (msg : pystr) : task unit := Log (l, msg) (Ret tt).

Definition lift {A} (o : outcome A) : task A :=
  match o with
  | Ok a => Ret a
  | Raise e => Throw e
  end.

(** *** kimi_api.py *)

Definition MODEL_NAME : pystr := py "kimi-latest".

Definition send_messages (messages : list message) : task pystr :=
  Create messages (fun completion =>
    match completion with
    | Raise e => Throw e
    | Ok [] => Throw (Exn IndexError (py "list index out of range"))
    | Ok (None :: _) =>
        Throw (Exn AttributeError (py "'NoneType' object has no attribute 'strip'"))
    | Ok (Some content :: _) => Ret (strip content)
    end).

(** *** main.py *)

Definition MAX_WORKERS : nat := 5.

Definition CHECKPOINT_FILE : pystr := py "checkpoint.txt".
Definition CACHE_FILE : pystr := py "cache.csv".
Definition FAIL_FILE : pystr := py "fail_data.csv".
Definition OUTPUT_FILE : pystr := py "自我肯定语_生成旁白.csv".

(** The file [logging.basicConfig] directs every log record to. *)
Definition LOG_FILE : pystr := py "generation_log.log".

(** Column names of the tables. *)
Definition COL_SENTENCE : pystr := py "自我肯定语".
Definition COL_MONOLOGUE : pystr := py "自我旁白".
Definition COL_MODEL : pystr := py "MODEL_NAME".
Definition FIELD : pystr := py "inner_monologue".

Definition clean_value (value : pyvalue) : pyvalue :=
  match value with
  | VStr s => VStr (replace [NEWLINE] (py "\n") s)
  | _ => value
  end.

(** The inverse direction named by the specification: every
    backslash-n pair becomes a newline again. *)
Definition unescape (s : pystr) : pystr := replace (py "\n") [NEWLINE] s.

Definition quoted (s : pystr) : pystr := [QUOTE] ++ s ++ [QUOTE].

Definition lines (ls : list pystr) : pystr := join [NEWLINE] ls.

Definition draft_prompt (sentence : pystr) : pystr :=
  lines
    [ [];
      py "    自我肯定语：" ++ sentence;
      [];
      py "    请仿照萨提亚的《当我真的愿意看见自己时》的风格，为输入的自我肯定语生成一段内心旁白。";
      py "    注意适当换行以减少读者的阅读难度。分三到四段生成内心旁白。不要写诗。";
      py "    约500字。";
      py "    必须以第一人称叙述。";
      py "    ";
      py "    请严格按照以下 JSON 格式返回数据：";
      py "    {";
      py "      " ++ quoted FIELD ++ py ": " ++ quoted (py "这里是生成的内心旁白内容");
      py "    }";
      py "    " ].

Definition check_prompt (draft : pystr) : pystr :=
  lines
    [ [];
      py "            针对上一次生成的内心旁白：";
      py "            " ++ draft;
      [];
      py "            请检查并优化以下内容：";
      py "            - 修正标点/空格问题";
      py "            - 改善语句通顺度";
      py "            - 统一人称（第一人称），必须以第一人称叙述。";
      py "            - 删除外语内容";
      py "            - 防止场景过于具体";
      py "            - 确保500字长度";
      py "            - 删除奇怪比喻";
      py "            - 修正语病/错别字";
      py "            ";
      py "            直接返回优化后的JSON：";
      py "            {";
      py "                " ++ quoted FIELD ++ py ": "
        ++ quoted (py "这里是修改后生成的内心旁白内容");
      py "            }";
      py "            " ].

Definition user (text : pystr) : message := Message (py "user") text.

(** [v and "inner_monologue" in v] as a condition *)
Definition has_field (v : pyvalue) : outcome bool :=
  if truthy v then py_in FIELD v else Ok false.

(** ** The program

    Library behaviour the program relies on but does not define is a
    parameter of the model: the JSON decoder, the text Python prints for
    an object that is not a string, the iteration order of a [set], and
    the CSV reader and writer of pandas. *)

Section Program.

Variable json_loads : pystr -> outcome pyvalue.
Variable py_repr : pyvalue -> pystr.
Variable set_order : gset Z -> list Z.
Variable read_csv : pystr -> outcome (list pyvalue).
Variable to_csv : list pyvalue -> pystr.

(** What an f-string puts in place of [{v}]. *)
Definition format_value (v : pyvalue) : pystr :=
  match v with
  | VStr s => s
  | _ => py_repr v
  end.

(** [None] is the failure marker. *)
Definition extract_json (response : pystr) : task pyvalue :=
  match search BRACES response with
  | Some group0 =>
      match json_loads group0 with
      | Ok v => Ret v
      | Raise e =>
          if is_JSONDecodeError e then
            _ ← logging WARNING
                  (py "JSON 解析失败: " ++ exn_str e ++ py ", 跳过该条数据: " ++ response);
            mret VNone
          else Throw e
      end
  | None =>
      _ ← logging WARNING (py "未找到 JSON 数据: " ++ response);
      mret VNone
  end.

(** The body of the [try] block of [process_sentence]. *)
Definition process_sentence_try (index : Z) (sentence prompt : pystr)
  : task (Z * pyvalue) :=
  let messages := [user prompt] in
  response ← send_messages messages;
  parsed_response ← extract_json response;
  found ← lift (has_field parsed_response);
  if found : bool then
    draft ← lift (py_getitem parsed_response FIELD);
    let check_prompt := check_prompt (format_value draft) in
    let messages := messages ++ [user check_prompt] in
    check_response ← send_messages messages;
    check_parsed_response ← extract_json check_response;
    found ← lift (has_field check_parsed_response);
    if found : bool then
      text ← lift (py_getitem check_parsed_response FIELD);
      mret (index,
            VDict [ (COL_SENTENCE, VStr sentence);
                    (COL_MONOLOGUE, clean_value text);
                    (COL_MODEL, VStr MODEL_NAME) ])
    else
      _ ← logging WARNING (py "生成失败，跳过: " ++ sentence);
      mret (index, VNone)
  else
    _ ← logging WARNING (py "生成失败，跳过: " ++ sentence);
    mret (index, VNone).

Definition process_sentence (index : Z) (sentence : pystr) : task (Z * pyvalue) :=
  let prompt := draft_prompt sentence in
  try_except (process_sentence_try index sentence prompt)
    (fun e =>
       _ ← logging ERROR (py "处理 " ++ sentence ++ py " 时发生错误: " ++ exn_str e);
       mret (index, VNone)).

(** *** The world outside the workers *)

(** [fs] maps a path to the text of the file, as [read] returns it and
    [write] is given it, for the files the program opens, hands to pandas
    or removes; [log] is what [logging] has received, that is, the records
    appended to [LOG_FILE], which the program writes by no other means
    and never reads: what happens to that file is read off [log], not
    off [fs]; [calls] is the sequence of requests that reached the
    chat-completion API. *)
Record world := World {
  fs : gmap (list N) (list N);
  log : list log_record;
  calls : list (list message)
}.

Definition write_file (path text : pystr) (w : world) : world :=
  World (<[path := text]> (fs w)) (log w) (calls w).

Definition remove_file (path : pystr) (w : world) : world :=
  World (delete path (fs w)) (log w) (calls w).

Definition emit (r : log_record) (w : world) : world :=
  World (fs w) (log w ++ [r]) (calls w).

Definition request (messages : list message) (w : world) : world :=
  World (fs w) (log w) (calls w ++ [messages]).

(** One task run on its own.  [api n messages] is the reply to
    [messages] when [n] requests have been made before it. *)
Fixpoint run {A} (t : task A) (api : nat -> list message -> api_reply)
    (w : world) : outcome A * world :=
  match t with
  | Ret a => (Ok a, w)
  | Throw e => (Raise e, w)
  | Create m k => run (k (api (length (calls w)) m)) api (request m w)
  | Log r k => run k api (emit r w)
  end.

(** *** Checkpoint store *)

Definition save_checkpoint (completed_indexes : gset Z) (w : world) : world :=
  write_file CHECKPOINT_FILE
    (join (py ",") (map py_str_int (set_order completed_indexes))) w.

Definition int_of (token : pystr) : outcome Z :=
  match py_int token with
  | Some z => Ok z
  | None =>
      Raise (Exn ValueError (py "invalid literal for int() with base 10: " ++ token))
  end.

Fixpoint map_int (tokens : list pystr) : outcome (list Z) :=
  match tokens with
  | [] => Ok []
  | t :: rest => z ← int_of t; zs ← map_int rest; mret (z :: zs)
  end.

Definition load_checkpoint (w : world) : outcome (gset Z) :=
  match fs w !! CHECKPOINT_FILE with
  | Some text =>
      let content := strip text in
      match content with
      | _ :: _ => (fun zs => list_to_set zs) <$> map_int (split (py ",") content)
      | [] => Ok ∅
      end
  | None => Ok ∅
  end.

(** *** Batch orchestrator *)

(** The list comprehension that drops finished indexes. *)
Definition to_process (sentences : list pystr) (start_index : Z)
    (completed_indexes : gset Z) : list (Z * pystr) :=
  filter (fun item => item.1 ∉ completed_indexes)
    (imap (fun i s => (Z.of_nat i + start_index, s)%Z) sentences).

(** State of the loop over [as_completed]: the two result lists, the
    in-memory completed set, and the exception that left the loop, if
    any. *)
Record collector := Collector {
  results : list pyvalue;
  fail_data : list pyvalue;
  completed_indexes : gset Z;
  error : option exn
}.

(** One iteration of the loop body, for [future.result() = (index, result)]. *)
Definition collect (sentences : list pystr) (start_index : Z)
    (index : Z) (result : pyvalue) (c : collector) : collector :=
  match error c with
  | Some _ => c
  | None =>
      if truthy result then
        Collector (results c ++ [result]) (fail_data c)
                  (completed_indexes c ∪ {[index]}) None
      else
        match list_getitem sentences (index - start_index) with
        | Ok original_sentence =>
            Collector (results c)
                      (fail_data c ++ [VDict [(COL_SENTENCE, VStr original_sentence)]])
                      (completed_indexes c) None
        | Raise e => Collector (results c) (fail_data c) (completed_indexes c) (Some e)
        end
  end.

(** [future.result()] re-raises what the task raised. *)
Definition collect_raised (e : exn) (c : collector) : collector :=
  match error c with
  | Some _ => c
  | None => Collector (results c) (fail_data c) (completed_indexes c) (Some e)
  end.

(** The executor: work items still queued, futures that a worker has
    started and the loop has not yet received (with the index under which
    [future_to_index] files them), the collecting loop, and the world. *)
Record pool := Pool {
  queue : list (Z * pystr);
  started : list (Z * task (Z * pyvalue));
  coll : collector;
  pworld : world
}.

Definition active {A} (t : task A) : bool :=
  match t with
  | Ret _ | Throw _ => false
  | Create _ _ | Log _ _ => true
  end.

Definition busy_workers (p : pool) : nat :=
  length (filter (fun f => active f.2 = true) (started p)).

(** What can happen next.  [Start]: a free worker takes the next queued
    item.  [Advance slot reply]: the future at [slot] performs its next
    effect, a request answered by [reply] or a log record (for which
    [reply] is not used).  [Collect slot]: [as_completed] yields the
    finished future at [slot] and the loop body handles it.  The schedule
    is chosen by the thread scheduler and the network, not by the
    program. *)
Inductive action :=
| Start
| Advance (slot : nat) (reply : api_reply)
| Collect (slot : nat).

Definition pool_step (sentences : list pystr) (start_index : Z)
    (a : action) (p : pool) : option pool :=
  match a with
  | Start =>
      match queue p with
      | (idx, sent) :: rest =>
          if decide (busy_workers p < MAX_WORKERS)%nat
          then Some (Pool rest (started p ++ [(idx, process_sentence idx sent)])
                          (coll p) (pworld p))
          else None
      | [] => None
      end
  | Advance slot reply =>
      match started p !! slot with
      | Some (idx, Create m k) =>
          Some (Pool (queue p) (<[slot := (idx, k reply)]> (started p))
                     (coll p) (request m (pworld p)))
      | Some (idx, Log r k) =>
          Some (Pool (queue p) (<[slot := (idx, k)]> (started p))
                     (coll p) (emit r (pworld p)))
      | _ => None
      end
  | Collect slot =>
      match started p !! slot with
      | Some (idx, Ret (index, result)) =>
          Some (Pool (queue p) (delete slot (started p))
                     (collect sentences start_index index result (coll p))
                     (pworld p))
      | Some (idx, Throw e) =>
          Some (Pool (queue p) (delete slot (started p))
                     (collect_raised e (coll p)) (pworld p))
      | _ => None
      end
  end.

Fixpoint pool_run (sentences : list pystr) (start_index : Z)
    (schedule : list action) (p : pool) : option pool :=
  match schedule with
  | [] => Some p
  | a :: rest =>
      p' ← pool_step sentences start_index a p;
      pool_run sentences start_index rest p'
  end.

Definition pool_init (todo : list (Z * pystr)) (completed : gset Z) (w : world)
  : pool :=
  Pool todo [] (Collector [] [] completed None) w.

(** Every submitted item has been run and received. *)
Definition drained (p : pool) : bool :=
  match queue p, started p with
  | [], [] => true
  | _, _ => false
  end.

(** [process_sentences_concurrently] under a given schedule.  [None]
    means the schedule is not a complete execution of the pool. *)
Definition process_sentences_concurrently (sentences : list pystr)
    (start_index : Z) (ignore_checkpoint : bool)
    (schedule : list action) (w : world)
  : option (outcome (list pyvalue * list pyvalue) * world) :=
  match (if ignore_checkpoint then Ok ∅ else load_checkpoint w) with
  | Raise e => Some (Raise e, w)
  | Ok completed =>
      let w1 :=
        emit (INFO, py "开始并发处理 "
                      ++ py_str_int (Z.of_nat (length sentences))
                      ++ py " 条自我肯定语...") w in
      match to_process sentences start_index completed with
      | [] => Some (Ok ([], []), emit (INFO, py "所有数据已完成，跳过处理。") w1)
      | todo =>
          p ← pool_run sentences start_index schedule (pool_init todo completed w1);
          if drained p then
            match error (coll p) with
            | Some e => Some (Raise e, pworld p)
            | None =>
                let w2 :=
                  if ignore_checkpoint then pworld p
                  else save_checkpoint (completed_indexes (coll p)) (pworld p) in
                Some (Ok (results (coll p), fail_data (coll p)), w2)
            end
          else None
      end
  end.

(** *** Result sink *)

Definition save_results (results fail_data : list pyvalue) (w : world)
  : outcome unit * world :=
  let stage1 : outcome unit * world :=
    match results with
    | _ :: _ =>
        let output_df := results in
        let merged :=
          match fs w !! OUTPUT_FILE with
          | Some text => (fun existing_df => existing_df ++ output_df) <$> read_csv text
          | None => Ok output_df
          end in
        match merged with
        | Ok output_df =>
            (Ok tt, emit (INFO, py "✅ 结果已追加保存至 " ++ OUTPUT_FILE)
                      (write_file OUTPUT_FILE (to_csv output_df) w))
        | Raise e => (Raise e, w)
        end
    | [] => (Ok tt, emit (INFO, py "没有新的成功数据需要保存。") w)
    end in
  match stage1 with
  | (Raise e, w1) => (Raise e, w1)
  | (Ok _, w1) =>
      match fail_data with
      | _ :: _ =>
          (Ok tt, emit (WARNING, py "⚠️ 失败数据已保存至 " ++ FAIL_FILE)
                    (write_file FAIL_FILE (to_csv fail_data) w1))
      | [] =>
          let w2 :=
            match fs w1 !! FAIL_FILE with
            | Some _ => remove_file FAIL_FILE w1
            | None => w1
            end in
          (Ok tt, emit (INFO, py "🎉 所有数据处理成功，无失败数据") w2)
      end
  end.

(** *** Notions used in the statements *)

(** How [clean_value] rewrites one character. *)
Definition escape_char (c : N) : pystr :=
  if c =? NEWLINE then [BACKSLASH; 110] else [c].

(** Characters of a printed integer. *)
Definition is_int_char (c : N) : Prop := c = 45 \/ (48 <= c <= 57).

(** The escaping law as the specification words it: a text with
    newlines is stored without any, and undoing the escape gives the
    text back. *)
Definition escaping_law (text : pystr) : Prop :=
  NEWLINE ∈ text ->
  exists stored,
    clean_value (VStr text) = VStr stored /\
    (NEWLINE ∉ stored) /\
    unescape stored = text.

(** A property of every way a task can end, whatever the API replies:
    [P] for a returned value, [Q] for a raised exception. *)
Fixpoint all_results {A} (P : A -> Prop) (Q : exn -> Prop) (t : task A) : Prop :=
  match t with
  | Ret a => P a
  | Throw e => Q e
  | Create _ k => forall reply, all_results P Q (k reply)
  | Log _ k => all_results P Q k
  end.

(** The Generation Record for [sentence] with the given stage-2 text. *)
Definition generation_record (sentence : pystr) (text : pyvalue) : pyvalue :=
  VDict [ (COL_SENTENCE, VStr sentence);
          (COL_MONOLOGUE, clean_value text);
          (COL_MODEL, VStr MODEL_NAME) ].

(** The Failure Record for [sentence]. *)
Definition failure_record (sentence : pystr) : pyvalue :=
  VDict [(COL_SENTENCE, VStr sentence)].

(** The two outcomes of a task: the failure signal [None], which the
    collecting loop reads as false, or a Generation Record, which it
    reads as true. *)
Definition task_outcome (sentence : pystr) (result : pyvalue) : Prop :=
  (result = VNone /\ truthy result = false) \/
  (exists text, result = generation_record sentence text /\ truthy result = true).

(** Every dispatched item is a sentence of the input, filed under its
    position plus the offset. *)
Definition dispatched (sentences : list pystr) (start_index : Z)
    (todo : list (Z * pystr)) : Prop :=
  forall idx s, (idx, s) ∈ todo ->
    exists i : nat, idx = (Z.of_nat i + start_index)%Z /\ sentences !! i = Some s.

(** What holds of the pool in every state a schedule can reach: the
    collecting loop has raised nothing; queued items and started futures
    come from the dispatch list; a started future can only end by
    returning its own index with one of the two outcomes; every
    dispatched item is queued, started or accounted for in exactly one
    result list; and no file has changed. *)
Record pool_inv (todo : list (Z * pystr)) (files : gmap (list N) (list N))
    (p : pool) : Prop := {
  inv_error : error (coll p) = None;
  inv_queue : Forall (fun item => item ∈ todo) (queue p);
  inv_started :
    Forall (fun f =>
              exists s, (f.1, s) ∈ todo /\
                all_results (fun r => r.1 = f.1 /\ task_outcome s r.2)
                            (fun _ => False) f.2)
           (started p);
  inv_count :
    (length (queue p) + length (started p)
     + length (results (coll p)) + length (fail_data (coll p)))%nat
    = length todo;
  inv_files : fs (pworld p) = files
}.

(** A world with no files, an empty log and no request made. *)
Definition empty_world : world := World ∅ [] [].

(** *** Sample inputs *)

Definition sample_sentence : pystr := py "I am enough".
Definition draft_reply : pystr := reply_object FIELD (py "draft text").
Definition final_reply : pystr := reply_object FIELD (py "final text\nwith a break").
Definition chatty_reply : pystr := py "Here you go: " ++ draft_reply ++ py " Enjoy!".
Definition not_json : pystr := py "not json at all".
Definition broken_reply : pystr := py "Sorry {oops} no object".

(** An API that answers the draft request and then the critique
    request, and one whose replies are not JSON. *)
Definition sample_api (n : nat) (_ : list message) : api_reply :=
  match n with
  | O => Ok [Some draft_reply]
  | S _ => Ok [Some final_reply]
  end.

Definition failing_api (n : nat) (_ : list message) : api_reply :=
  Ok [Some not_json].

(** An API whose critique reply is an object without the field. *)
Definition omitting_api (n : nat) (_ : list message) : api_reply :=
  match n with
  | O => Ok [Some draft_reply]
  | S _ => Ok [Some (reply_object (py "monologue") (py "final text"))]
  end.

(** A world left behind by an earlier run: indexes 0 and 1 are
    checkpointed and a failure table exists. *)
Definition earlier_world : world :=
  write_file CHECKPOINT_FILE (py "0,1") (write_file FAIL_FILE (py "stale") empty_world).

Definition blank_checkpoint_world : world :=
  write_file CHECKPOINT_FILE [32; NEWLINE; 9] empty_world.

(** Two sentences on two workers: the first gets a reply that is not
    JSON, the second gets both replies; the second is received first. *)
Definition two_sentences : list pystr := [py "A"; py "B"].

Definition schedule_until_last : list action :=
  [ Start; Start;
    Advance 0 (Ok [Some not_json]);
    Advance 1 (Ok [Some draft_reply]);
    Advance 0 (Ok []); Advance 0 (Ok []);
    Advance 1 (Ok [Some final_reply]);
    Collect 1 ].

Definition sample_schedule : list action := schedule_until_last ++ [Collect 0].

(** *** Notions used in the further properties *)

(** A property of every way a task can end, together with the requests
    it has made and the log records it has written on the way. *)
Fixpoint all_ends {A}
    (P : list (list message) -> list log_record -> outcome A -> Prop)
    (cs : list (list message)) (ls : list log_record) (t : task A) : Prop :=
  match t with
  | Ret a => P cs ls (Ok a)
  | Throw e => P cs ls (Raise e)
  | Create m k => forall reply, all_ends P (cs ++ [m]) ls (k reply)
  | Log r k => all_ends P cs (ls ++ [r]) k
  end.

(** The request that opens every task, and a request that extends it by
    the critique turn built from some draft text. *)
Definition draft_request (sentence : pystr) : list message :=
  [user (draft_prompt sentence)].

Definition critique_request (sentence draft : pystr) : list message :=
  draft_request sentence ++ [user (check_prompt draft)].

(** What one task leaves behind: its own index, and either a record
    after exactly the two requests and nothing logged, or the failure
    signal after one or two requests and something logged. *)
Definition task_trace (index : Z) (sentence : pystr)
    (cs : list (list message)) (ls : list log_record)
    (o : outcome (Z * pyvalue)) : Prop :=
  exists result,
    o = Ok (index, result) /\
    ((truthy result = true /\ ls = [] /\
      exists draft, cs = [draft_request sentence; critique_request sentence draft]) \/
     (truthy result = false /\ ls <> [] /\
      (cs = [draft_request sentence] \/
       exists draft, cs = [draft_request sentence; critique_request sentence draft]))).

(** The record the handler of [process_sentence] writes for [e]. *)
Definition error_record (sentence : pystr) (e : exn) : log_record :=
  (ERROR, py "处理 " ++ sentence ++ py " 时发生错误: " ++ exn_str e).

(** An API whose completion carries no text. *)
Definition silent_api (n : nat) (_ : list message) : api_reply := Ok [None].

(** The checkpoint of [earlier_world] after an editor has added
    blanks around it, and a checkpoint left with a trailing comma. *)
Definition padded_world : world :=
  write_file CHECKPOINT_FILE ([32] ++ py "0,1" ++ [NEWLINE]) empty_world.

Definition trailing_comma_world : world :=
  write_file CHECKPOINT_FILE (py "0,1,") empty_world.

(** A ledger for the pool: the dispatched items are, up to order, the
    queued ones, the ones a worker has started ([running], in the order
    of the futures), the ones whose record was collected ([succeeded],
    in the order of the result list) and the ones whose failure was
    collected ([failed], in the order of the failure list); the
    in-memory completed set is the loaded one plus the indexes of
    [succeeded]. *)
Record pool_ledger (todo : list (Z * pystr)) (completed : gset Z) (p : pool)
    (running succeeded failed : list (Z * pystr)) : Prop := {
  led_items : queue p ++ running ++ succeeded ++ failed ≡ₚ todo;
  led_started : fst <$> running = fst <$> started p;
  led_results :
    Forall2 (fun r item => exists text, r = generation_record item.2 text)
            (results (coll p)) succeeded;
  led_failures : fail_data (coll p) = (fun item => failure_record item.2) <$> failed;
  led_completed :
    completed_indexes (coll p) = completed ∪ list_to_set (fst <$> succeeded)
}.

(** The parser's boundary as the specification words it: whatever the
    text, [extract_json] returns and raises nothing. *)
Definition parser_law (response : pystr) (api : nat -> list message -> api_reply)
    (w : world) : Prop :=
  exists v w', run (extract_json response) api w = (Ok v, w').


(** A reply whose object nests two thousand arrays, and a directory
    whose output table is an empty file, next to a failure table left by
    an earlier run. *)
Definition deep_reply : pystr :=
  [LBRACE; QUOTE; 97; QUOTE; 58] ++ repeat 91 2000 ++ [RBRACE].


(** Two batches of records whose cells hold plain text. *)
Definition first_batch : list pyvalue :=
  [generation_record (py "A") (VStr (py "first text"))].


(** *** Entry point

    [main] reads the mode the user types and runs one of three pipelines
    over the files of the working directory.  The two selections it makes
    on a table with pandas, the rows of weight 3 and the sentence column
    without its missing cells, are parameters like the CSV reader.  What
    [print] and [input] write to the terminal is returned as a list, one
    entry per call; the progress bar is not modelled. *)

Variable select_weight : list pyvalue -> outcome (list pyvalue).
Variable sentence_column : list pyvalue -> outcome (list pystr).

Definition SOURCE_FILE : pystr := py "0315句子更新 - 汇总表.csv".

(** How a call of [main] ends: it returns, [exit] raises [SystemExit],
    or an exception leaves it. *)
Inductive ending :=
| Returned
| SystemExit (code : Z)
| Uncaught (e : exn).

(** [pd.read_csv(path)] *)
Definition pd_read_csv (path : pystr) (w : world) : outcome (list pyvalue) :=
  match fs w !! path with
  | Some text => read_csv text
  | None =>
      Raise (Exn (OtherException (py "FileNotFoundError"))
                 (py "[Errno 2] No such file or directory: '" ++ path ++ py "'"))
  end.

Definition MENU : list pystr :=
  [ py "请选择运行模式：";
    py "0. EXIT";
    py "1. 从总数据中开始生产";
    py "2. 重试失败的案例（读取 fail_data.csv）";
    py "3. 从 checkpoint 中恢复生产";
    py "请输入 0, 1, 2 或 3: " ].

(** The two statements that end each of the three modes: the batch run
    from index 0 and the call of [save_results] on what it returns. *)
Definition process_and_save (sentences : list pystr) (ignore_checkpoint : bool)
    (schedule : list action) (w : world) : option (ending * world) :=
  match process_sentences_concurrently sentences 0 ignore_checkpoint schedule w with
  | Some (Ok (results, fail_data), w1) =>
      match save_results results fail_data w1 with
      | (Ok _, w2) => Some (Returned, w2)
      | (Raise e, w2) => Some (Uncaught e, w2)
      end
  | Some (Raise e, w1) => Some (Uncaught e, w1)
  | None => None
  end.

(** [main], given the line the user types at the prompt. *)
Definition main (typed : pystr) (schedule : list action) (w : world)
  : option (ending * world * list pystr) :=
  let choice := strip typed in
  if bool_decide (choice = py "1") then
    match pd_read_csv SOURCE_FILE w ≫= select_weight with
    | Ok df =>
        let w1 := write_file CACHE_FILE (to_csv df) w in
        match sentence_column df with
        | Ok sentences =>
            match process_and_save sentences false schedule w1 with
            | Some (e, w2) =>
                Some (e, w2,
                      MENU ++ [py "len(sentences): "
                                 ++ py_str_int (Z.of_nat (length sentences))])
            | None => None
            end
        | Raise e => Some (Uncaught e, w1, MENU)
        end
    | Raise e => Some (Uncaught e, w, MENU)
    end
  else if bool_decide (choice = py "2") then
    match fs w !! FAIL_FILE with
    | Some text =>
        match read_csv text ≫= sentence_column with
        | Ok sentences =>
            match process_and_save sentences true schedule w with
            | Some (e, w2) => Some (e, w2, MENU)
            | None => None
            end
        | Raise e => Some (Uncaught e, w, MENU)
        end
    | None =>
        Some (Returned, w, MENU ++ [py "❌ 没有 fail_data.csv，所有数据已成功处理！"])
    end
  else if bool_decide (choice = py "3") then
    match fs w !! CACHE_FILE with
    | Some text =>
        match read_csv text with
        | Ok df =>
            match load_checkpoint w with
            | Ok completed_indexes =>
                if bool_decide (length df <= size completed_indexes)%nat then
                  Some (Returned, w, MENU ++ [py "🎉 所有数据已成功处理，无需恢复"])
                else
                  match sentence_column df with
                  | Ok sentences =>
                      match process_and_save sentences false schedule w with
                      | Some (e, w2) => Some (e, w2, MENU)
                      | None => None
                      end
                  | Raise e => Some (Uncaught e, w, MENU)
                  end
            | Raise e => Some (Uncaught e, w, MENU)
            end
        | Raise e => Some (Uncaught e, w, MENU)
        end
    | None =>
        Some (Returned, w, MENU ++ [py "❌ 未找到 cache.csv，无法从 checkpoint 恢复！"])
    end
  else if bool_decide (choice = py "0") then Some (SystemExit 1, w, MENU)
  else Some (Returned, w, MENU ++ [py "❌ 无效输入，请输入 0, 1, 2 或 3"]).

(** Reference selections over the tables of [read_csv_ref], whose cells
    are text. *)
Definition COL_WEIGHT : pystr := py "权重".

Definition select_weight_ref (df : list pyvalue) : outcome (list pyvalue) :=
  Ok (List.filter
        (fun row =>
           match row with
           | VDict cells =>
               match dict_get COL_WEIGHT cells with
               | Some (VStr s) => str_eqb s (py "3")
               | _ => false
               end
           | _ => false
           end) df).

Fixpoint sentence_column_ref (df : list pyvalue) : outcome (list pystr) :=
  match df with
  | [] => Ok []
  | VDict cells :: rest =>
      match dict_get COL_SENTENCE cells with
      | Some (VStr []) => sentence_column_ref rest
      | Some (VStr s) => (fun l => s :: l) <$> sentence_column_ref rest
      | _ => Raise (Exn KeyError COL_SENTENCE)
      end
  | _ :: _ => Raise (Exn KeyError COL_SENTENCE)
  end.

(** A directory after an earlier run that failed on both sentences, one
    with a cache of two rows and a full checkpoint, and one holding only
    the source table. *)
Definition retry_world : world :=
  write_file FAIL_FILE (py "自我肯定语" ++ [NEWLINE] ++ py "A" ++ [NEWLINE] ++ py "B" ++ [NEWLINE])
    (write_file CHECKPOINT_FILE (py "0,1") empty_world).

Definition resumed_world : world :=
  write_file CACHE_FILE (py "自我肯定语" ++ [NEWLINE] ++ py "A" ++ [NEWLINE] ++ py "B" ++ [NEWLINE])
    (write_file CHECKPOINT_FILE (py "0,1") empty_world).

Definition source_world : world :=
  write_file SOURCE_FILE
    (py "自我肯定语,权重" ++ [NEWLINE] ++ py "A,3" ++ [NEWLINE]
       ++ py "C,1" ++ [NEWLINE] ++ py "B,3" ++ [NEWLINE])
    empty_world.

(** Request accounting for the pool.  Each started future is paired with
    the requests and log records it has produced so far; [late] counts
    the requests of the futures already received as failures. *)
Fixpoint requests_of (traces : list (list (list message) * list log_record)) : nat :=
  match traces with
  | [] => 0%nat
  | tr :: rest => (length tr.1 + requests_of rest)%nat
  end.

Record pool_requests (before : nat) (p : pool)
    (traces : list (list (list message) * list log_record)) (late : nat) : Prop := {
  req_traces :
    Forall2 (fun f tr => exists s, all_ends (task_trace f.1 s) tr.1 tr.2 f.2)
            (started p) traces;
  req_total :
    length (calls (pworld p))
    = (before + 2 * length (results (coll p)) + late + requests_of traces)%nat;
  req_late :
    (length (fail_data (coll p)) <= late /\ late <= 2 * length (fail_data (coll p)))%nat
}.

(** ** Facts about text *)

Lemma py_backslash_n : py "\n" = [BACKSLASH; 110].
Proof. reflexivity. Qed.

Lemma py_comma : py "," = [44].
Proof. reflexivity. Qed.

Lemma replace_newline (s : pystr) :
  replace [NEWLINE] (py "\n") s = flat_map escape_char s.
Proof.
  rewrite py_backslash_n. unfold replace.
  induction s as [|c s IH]; [reflexivity|].
  cbn [replace_from startswith length pred flat_map].
  unfold escape_char at 1. rewrite N.eqb_sym, andb_true_r.
  destruct (c =? NEWLINE); cbn; now rewrite IH.
Qed.

Lemma escaped_has_no_newline (s : pystr) : NEWLINE ∉ flat_map escape_char s.
Proof.
  induction s as [|c s IH]; cbn [flat_map]; [apply not_elem_of_nil|].
  rewrite elem_of_app. intros [H|H]; [|exact (IH H)].
  unfold escape_char in H. destruct (N.eqb_spec c NEWLINE) as [->|Hc].
  - apply elem_of_cons in H as [H|H]; [discriminate|].
    apply list_elem_of_singleton in H. discriminate.
  - apply list_elem_of_singleton in H. congruence.
Qed.

Lemma startswith_n_escaped (s : pystr) :
  startswith [110] (flat_map escape_char s) = startswith [110] s.
Proof.
  destruct s as [|x s]; [reflexivity|]. cbn [flat_map].
  unfold escape_char. destruct (N.eqb_spec x NEWLINE) as [->|Hx]; reflexivity.
Qed.

Lemma unescape_escaped (s : pystr) :
  str_contains (py "\n") s = false ->
  replace (py "\n") [NEWLINE] (flat_map escape_char s) = s.
Proof.
  rewrite py_backslash_n. unfold replace.
  induction s as [|c s IH]; [reflexivity|].
  cbn [str_contains]. intros H. apply orb_false_elim in H as [Hhd Htl].
  specialize (IH Htl). cbn [flat_map]. unfold escape_char at 1.
  destruct (N.eqb_spec c NEWLINE) as [->|Hc].
  - cbn. now rewrite IH.
  - cbn [app replace_from].
    assert (Hs : startswith [BACKSLASH; 110] (c :: flat_map escape_char s) = false).
    { cbn [startswith] in *. fold (startswith [110] (flat_map escape_char s)).
      rewrite startswith_n_escaped. exact Hhd. }
    rewrite Hs. now rewrite IH.
Qed.

Lemma uint_codes_digits (u : Decimal.uint) :
  Forall (fun c => 48 <= c <= 57) (uint_codes u).
Proof. induction u; cbn; constructor; (lia || assumption). Qed.

Lemma py_str_int_chars (z : Z) : Forall is_int_char (py_str_int z).
Proof.
  assert (H : forall u, Forall is_int_char (uint_codes u)).
  { intros u. eapply Forall_impl; [apply uint_codes_digits|].
    intros c Hc. now right. }
  destruct z; cbn; [constructor; [right; lia | constructor] | apply H |].
  constructor; [now left | apply H].
Qed.

Lemma py_str_int_nonempty (z : Z) : py_str_int z <> [].
Proof.
  destruct z as [|p|p]; cbn; try discriminate.
  pose proof (DecimalPos.Unsigned.to_uint_nonnil p) as Hn.
  destruct (Pos.to_uint p); cbn; congruence.
Qed.

Lemma lstrip_id (s : pystr) : Forall (fun c => isspace c = false) s -> lstrip s = s.
Proof. destruct 1 as [|c s Hc _]; cbn; [reflexivity | now rewrite Hc]. Qed.

Lemma strip_id (s : pystr) : Forall (fun c => isspace c = false) s -> strip s = s.
Proof.
  intros H. unfold strip, rstrip. rewrite (lstrip_id s H).
  rewrite lstrip_id; [apply rev_involutive|].
  now apply List.Forall_rev.
Qed.

Lemma lstrip_spaces (s : pystr) : Forall (fun c => isspace c = true) s -> lstrip s = [].
Proof. induction 1 as [|c s Hc _ IH]; cbn; [reflexivity | now rewrite Hc]. Qed.

Lemma strip_spaces (s : pystr) : Forall (fun c => isspace c = true) s -> strip s = [].
Proof. intros H. unfold strip. now rewrite (lstrip_spaces s H). Qed.

Lemma int_char_not_space (c : N) : is_int_char c -> isspace c = false.
Proof.
  intros [->|Hc]; [reflexivity|]. unfold isspace.
  repeat match goal with
         | |- context [?a <=? ?b] => destruct (N.leb_spec a b); try lia
         | |- context [?a =? ?b] => destruct (N.eqb_spec a b); try lia
         end; reflexivity.
Qed.

Lemma parse_uint_codes (u : Decimal.uint) :
  u <> Decimal.Nil -> parse_digits (uint_codes u) = Some u.
Proof.
  assert (Hstep : forall (d : Decimal.uint -> Decimal.uint) c u',
             digit_of c = Some d -> 48 <= c <= 57 ->
             (u' <> Decimal.Nil -> parse_digits (uint_codes u') = Some u') ->
             parse_digits (c :: uint_codes u') = Some (d u')).
  { intros d c u' Hd Hc IH. cbn [parse_digits]. rewrite Hd.
    destruct u' as [|u'|u'|u'|u'|u'|u'|u'|u'|u'|u'];
      [reflexivity|..];
      cbn [uint_codes];
      match goal with
      | |- context [uint_codes ?v] =>
          change (if ?x =? 95 then _ else ?e) with e
      end;
      cbn [uint_codes] in IH; rewrite IH by discriminate; reflexivity. }
  induction u; intros Hu; [congruence|..]; cbn [uint_codes];
    apply Hstep; try reflexivity; try lia; assumption.
Qed.

Lemma py_int_str (z : Z) : py_int (py_str_int z) = Some z.
Proof.
  unfold py_int. rewrite strip_id.
  2:{ eapply Forall_impl; [apply py_str_int_chars|]. apply int_char_not_space. }
  destruct z as [|p|p]; [reflexivity|..]; cbn [py_str_int].
  - pose proof (parse_uint_codes _ (DecimalPos.Unsigned.to_uint_nonnil p)) as Hp.
    pose proof (uint_codes_digits (Pos.to_uint p)) as Hd.
    destruct (uint_codes (Pos.to_uint p)) as [|c r]; [discriminate|].
    apply Forall_cons in Hd as [Hc _].
    cbv zeta. cbv iota.
    destruct (N.eqb_spec c 45); [lia|]. destruct (N.eqb_spec c 43); [lia|].
    rewrite Hp. cbn.
    unfold N.of_uint. now rewrite DecimalPos.Unsigned.of_to.
  - change (45 =? 45) with true. cbn iota.
    rewrite parse_uint_codes by apply DecimalPos.Unsigned.to_uint_nonnil.
    cbn. unfold N.of_uint. now rewrite DecimalPos.Unsigned.of_to.
Qed.

Lemma split_token (t rest cur : pystr) :
  Forall (fun c => c <> 44) t ->
  split_from [44] 0 cur (t ++ rest) = split_from [44] 0 (rev t ++ cur) rest.
Proof.
  intros H. revert cur. induction H as [|c t Hc _ IH]; intros cur; [reflexivity|].
  cbn [app split_from startswith].
  destruct (N.eqb_spec 44 c) as [E|_]; [congruence|]. cbn [andb].
  rewrite IH. cbn [rev]. now rewrite <- app_assoc.
Qed.

Lemma split_join (t : pystr) (ts : list pystr) (cur : pystr) :
  Forall (Forall (fun c => c <> 44)) (t :: ts) ->
  split_from [44] 0 cur (join [44] (t :: ts)) = (rev cur ++ t) :: ts.
Proof.
  revert t cur. induction ts as [|t2 ts IH]; intros t cur H.
  - cbn [join]. rewrite <- (app_nil_r t) at 1.
    apply Forall_cons in H as [Ht _]. rewrite (split_token _ _ _ Ht).
    cbn. now rewrite rev_app_distr, rev_involutive.
  - apply Forall_cons in H as [Ht H].
    change (join [44] (t :: t2 :: ts)) with (t ++ [44] ++ join [44] (t2 :: ts)).
    rewrite (split_token _ _ _ Ht). cbn [app split_from startswith length pred].
    rewrite N.eqb_refl. cbn [andb]. rewrite (IH _ _ H).
    now rewrite rev_app_distr, rev_involutive.
Qed.

Lemma int_char_not_comma (c : N) : is_int_char c -> c <> 44.
Proof. intros [->|Hc]; lia. Qed.

Lemma join_chars (P : N -> Prop) (sep : pystr) (ts : list pystr) :
  Forall P sep -> Forall (Forall P) ts -> Forall P (join sep ts).
Proof.
  intros Hsep H. induction H as [|t ts Ht Hts IH]; [constructor|].
  destruct ts as [|t2 ts]; [exact Ht|].
  change (join sep (t :: t2 :: ts)) with (t ++ sep ++ join sep (t2 :: ts)).
  rewrite !Forall_app. auto.
Qed.

Lemma join_nonempty (sep t : pystr) (ts : list pystr) :
  t <> [] -> join sep (t :: ts) <> [].
Proof.
  intros Ht. destruct ts; [exact Ht|].
  change (join sep (t :: l :: ts)) with (t ++ sep ++ join sep (l :: ts)).
  destruct t; [congruence | discriminate].
Qed.

Lemma map_int_str (zs : list Z) : map_int (map py_str_int zs) = Ok zs.
Proof.
  induction zs as [|z zs IH]; [reflexivity|].
  cbn [map map_int]. unfold int_of. rewrite py_int_str. cbn. now rewrite IH.
Qed.

(** The text [save_checkpoint] writes reads back as the list it printed. *)
Lemma checkpoint_text_parses (zs : list Z) :
  let text := join (py ",") (map py_str_int zs) in
  Forall (fun c => c = 44 \/ is_int_char c) text /\
  strip text = text /\
  (zs <> [] -> text <> [] /\ map_int (split (py ",") text) = Ok zs).
Proof.
  cbv zeta. rewrite py_comma.
  assert (Hchars : Forall (fun c => c = 44 \/ is_int_char c)
                     (join [44] (map py_str_int zs))).
  { apply join_chars; [repeat constructor|].
    apply Forall_forall. intros t Ht. apply list_elem_of_fmap in Ht as (z & -> & _).
    eapply Forall_impl; [apply py_str_int_chars|]. now right. }
  split; [exact Hchars|]. split.
  - apply strip_id. eapply Forall_impl; [exact Hchars|].
    intros c [->|Hc]; [reflexivity | now apply int_char_not_space].
  - intros Hne. destruct zs as [|z zs]; [congruence|]. cbn [map]. split.
    + apply join_nonempty, py_str_int_nonempty.
    + unfold split. rewrite split_join.
      * apply (map_int_str (z :: zs)).
      * change (py_str_int z :: map py_str_int zs) with (map py_str_int (z :: zs)).
        apply Forall_forall. intros t Ht.
        apply list_elem_of_fmap in Ht as (z' & -> & _).
        eapply Forall_impl; [apply py_str_int_chars|]. apply int_char_not_comma.
Qed.

(** ** Escaping *)

(** C5, as amended: [clean_value] stores a text without any literal
    newline, and replacing each backslash-n pair of the stored text by a
    newline gives the original back whenever the original has no
    backslash immediately followed by the letter n. *)
Theorem clean_value_escaping (text : pystr) :
  exists stored,
    clean_value (VStr text) = VStr stored /\
    (NEWLINE ∉ stored) /\
    (str_contains (py "\n") text = false -> unescape stored = text).
Proof.
  exists (flat_map escape_char text). cbn [clean_value].
  rewrite replace_newline. split; [reflexivity|]. split.
  - apply escaped_has_no_newline.
  - intros H. unfold unescape. now apply unescape_escaped.
Qed.

(** C5, as stated, fails on the three characters backslash, n, newline:
    the stored text is backslash-n twice, which reads back as two
    newlines. *)
Lemma clean_value_not_reversible : ~ escaping_law [BACKSLASH; 110; NEWLINE].
Proof.
  intros H. destruct H as (stored & Hs & _ & Hback).
  - apply list_elem_of_In. cbn. tauto.
  - cbn in Hs. injection Hs as <-. vm_compute in Hback. discriminate.
Qed.

(** ** Checkpoint store *)

(** C3: whatever set of indexes is saved, loading gives the same set
    back; the file is the indexes in decimal, separated by commas, on one
    line.  The only assumption is that iterating over a set visits each
    member once, in some order. *)
Theorem checkpoint_roundtrip (S : gset Z) (w : world) :
  (forall X : gset Z, set_order X ≡ₚ elements X) ->
  exists text,
    fs (save_checkpoint S w) !! CHECKPOINT_FILE = Some text /\
    text = join (py ",") (map py_str_int (set_order S)) /\
    (NEWLINE ∉ text) /\
    load_checkpoint (save_checkpoint S w) = Ok S.
Proof.
  intros set_order_perm.
  eexists. split; [apply lookup_insert_eq|]. split; [reflexivity|].
  destruct (checkpoint_text_parses (set_order S)) as (Hchars & Hstrip & Hparse).
  cbv zeta in Hchars, Hstrip, Hparse. split.
  - intros Hin. rewrite Forall_forall in Hchars.
    destruct (Hchars _ Hin) as [E|[E|E]]; try discriminate. unfold NEWLINE in E. lia.
  - unfold load_checkpoint, save_checkpoint, write_file. cbn [fs].
    rewrite lookup_insert_eq, Hstrip.
    assert (Hset : list_to_set (set_order S) = S).
    { rewrite (set_order_perm S). apply list_to_set_elements_L. }
    destruct (set_order S) as [|z zs].
    + cbn. now rewrite <- Hset.
    + destruct Hparse as [Hne Hp]; [discriminate|].
      destruct (join (py ",") (map py_str_int (z :: zs))) as [|c r];
        [congruence|].
      rewrite Hp. change (Ok (list_to_set (z :: zs)) = Ok S). now rewrite Hset.
Qed.

(** C10: a checkpoint file that is empty or holds only whitespace loads
    as the empty set, although splitting its text on commas and parsing
    each token would raise on the empty token. *)
Theorem load_checkpoint_blank (w : world) (text : pystr) :
  fs w !! CHECKPOINT_FILE = Some text ->
  Forall (fun c => isspace c = true) text ->
  load_checkpoint w = Ok ∅ /\
  exists e, map_int (split (py ",") (strip text)) = Raise e.
Proof.
  intros Hfile Hblank. unfold load_checkpoint.
  rewrite Hfile, (strip_spaces _ Hblank). split; [reflexivity|].
  eexists. reflexivity.
Qed.

(** ** The brace pattern *)

Lemma from_first_snoc (c x : N) (l : pystr) :
  from_first c (l ++ [x]) =
  match from_first c l with
  | Some t => Some (t ++ [x])
  | None => if x =? c then Some [x] else None
  end.
Proof.
  induction l as [|y l IH]; cbn [app from_first]; [reflexivity|].
  destruct (y =? c); [reflexivity | exact IH].
Qed.

Lemma upto_last_cons (c x : N) (s : pystr) :
  upto_last c (x :: s) =
  match upto_last c s with
  | Some m => Some (x :: m)
  | None => if x =? c then Some [x] else None
  end.
Proof.
  unfold upto_last. cbn [rev]. rewrite from_first_snoc.
  destruct (from_first c (rev s)) as [t|]; cbn.
  - now rewrite rev_app_distr.
  - now destruct (x =? c).
Qed.

Lemma upto_last_nil (c : N) : upto_last c [] = None.
Proof. reflexivity. Qed.

(** The greedy star followed by a closing brace runs to the last
    closing brace. *)
Lemma star_to_last_brace (s : pystr) :
  match upto_last RBRACE s with
  | Some m =>
      match_here [Star AnyChar; One (Lit RBRACE)] s = Some (length m) /\
      take (length m) s = m
  | None => match_here [Star AnyChar; One (Lit RBRACE)] s = None
  end.
Proof.
  induction s as [|x s IH]; [reflexivity|].
  rewrite upto_last_cons.
  change (match_here [Star AnyChar; One (Lit RBRACE)] (x :: s))
    with (match match_here [Star AnyChar; One (Lit RBRACE)] s with
          | Some n => Some (S n)
          | None => match_here [One (Lit RBRACE)] (x :: s)
          end).
  destruct (upto_last RBRACE s) as [m|].
  - destruct IH as [-> Htake]. cbn [length take]. now rewrite Htake.
  - rewrite IH. cbn [match_here atom_matches].
    destruct (x =? RBRACE); cbn; auto.
Qed.

Lemma upto_last_none_suffix (c : N) (p t : pystr) :
  upto_last c (p ++ t) = None -> upto_last c t = None.
Proof.
  induction p as [|x p IH]; [auto|]. cbn [app]. rewrite upto_last_cons.
  destruct (upto_last c (p ++ t)); [discriminate | auto].
Qed.

Lemma from_first_suffix (c : N) (s t : pystr) :
  from_first c s = Some t -> exists p, s = p ++ t.
Proof.
  induction s as [|x s IH]; cbn [from_first]; [discriminate|].
  destruct (x =? c).
  - intros [= <-]. now exists [].
  - intros H. destruct (IH H) as [p ->]. now exists (x :: p).
Qed.

Lemma outermost_braces_none (s : pystr) :
  upto_last RBRACE s = None -> outermost_braces s = None.
Proof.
  intros H. unfold outermost_braces.
  destruct (from_first LBRACE s) as [[|b t]|] eqn:E; try reflexivity.
  destruct (from_first_suffix _ _ _ E) as [p ->].
  rewrite (upto_last_none_suffix _ (p ++ [b]) t); [reflexivity|].
  now rewrite <- app_assoc.
Qed.

(** [re.search] with the brace pattern finds what the specification
    describes. *)
Lemma search_braces (s : pystr) : search BRACES s = outermost_braces s.
Proof.
  induction s as [|x s IH]; [reflexivity|].
  unfold outermost_braces. cbn [from_first search].
  change (match_here BRACES (x :: s))
    with (if x =? LBRACE
          then S <$> match_here [Star AnyChar; One (Lit RBRACE)] s
          else None).
  pose proof (star_to_last_brace s) as Hstar.
  destruct (x =? LBRACE).
  - destruct (upto_last RBRACE s) as [m|] eqn:E.
    + destruct Hstar as [-> Htake]. cbn. now rewrite Htake.
    + rewrite Hstar. cbn. rewrite IH. now apply outermost_braces_none.
  - exact IH.
Qed.

(** ** Reasoning about tasks *)

Arguments py : simpl never.
Arguments draft_prompt : simpl never.
Arguments check_prompt : simpl never.

Lemma run_bind {A B} (t : task A) (f : A -> task B) api w :
  run (t ≫= f) api w =
  match run t api w with
  | (Ok a, w1) => run (f a) api w1
  | (Raise e, w1) => (Raise e, w1)
  end.
Proof.
  revert w. induction t as [a|e|m k IH|r k IH]; intros w; cbn; auto.
Qed.

Lemma run_try_except {A} (t : task A) (h : exn -> task A) api w :
  run (try_except t h) api w =
  match run t api w with
  | (Ok a, w1) => (Ok a, w1)
  | (Raise e, w1) => run (h e) api w1
  end.
Proof.
  revert w. induction t as [a|e|m k IH|r k IH]; intros w; cbn; auto.
Qed.

Lemma all_results_run {A} (P : A -> Prop) (Q : exn -> Prop) (t : task A) api w :
  all_results P Q t ->
  match (run t api w).1 with
  | Ok a => P a
  | Raise e => Q e
  end.
Proof.
  revert w. induction t as [a|e|m k IH|r k IH]; intros w H; cbn in *; auto;
    apply IH; auto.
Qed.

Lemma all_results_bind {A B} (P : B -> Prop) (Q : exn -> Prop)
    (t : task A) (f : A -> task B) :
  all_results (fun a => all_results P Q (f a)) Q t ->
  all_results P Q (t ≫= f).
Proof. induction t as [a|e|m k IH|r k IH]; cbn; auto. Qed.

Lemma all_results_try {A} (P : A -> Prop) (Q : exn -> Prop)
    (t : task A) (h : exn -> task A) :
  all_results P (fun e => all_results P Q (h e)) t ->
  all_results P Q (try_except t h).
Proof. induction t as [a|e|m k IH|r k IH]; cbn; auto. Qed.

Lemma all_results_weaken {A} (P P' : A -> Prop) (Q Q' : exn -> Prop) (t : task A) :
  (forall a, P a -> P' a) -> (forall e, Q e -> Q' e) ->
  all_results P Q t -> all_results P' Q' t.
Proof. intros HP HQ. induction t as [a|e|m k IH|r k IH]; cbn; auto. Qed.

Lemma all_results_send {B} (P : B -> Prop) (Q : exn -> Prop) messages
    (f : pystr -> task B) :
  (forall response, all_results P Q (f response)) -> (forall e, Q e) ->
  all_results P Q (send_messages messages ≫= f).
Proof.
  intros Hf HQ. cbn. intros [[|[content|] more]|e]; cbn; auto.
Qed.

Lemma all_results_extract_json {B} (P : B -> Prop) (Q : exn -> Prop) response
    (f : pyvalue -> task B) :
  (forall v, all_results P Q (f v)) -> (forall e, Q e) ->
  all_results P Q (extract_json response ≫= f).
Proof.
  intros Hf HQ. unfold extract_json.
  destruct (search BRACES response) as [group0|]; [|cbn; auto].
  destruct (json_loads group0) as [v|e]; [cbn; auto|].
  destruct (is_JSONDecodeError e); cbn; auto.
Qed.

Lemma all_results_lift {A B} (P : B -> Prop) (Q : exn -> Prop)
    (o : outcome A) (f : A -> task B) :
  (forall a, all_results P Q (f a)) -> (forall e, Q e) ->
  all_results P Q (lift o ≫= f).
Proof. intros Hf HQ. destruct o; cbn; auto. Qed.

(** Tasks reach the API and the log, never the files. *)
Lemma run_fs {A} (t : task A) api w : fs (run t api w).2 = fs w.
Proof.
  revert w. induction t as [a|e|m k IH|r k IH]; intros w; cbn; auto.
  - now rewrite IH.
  - now rewrite IH.
Qed.

(** [extract_json] makes no request. *)
Lemma run_extract_json_calls response api w :
  calls (run (extract_json response) api w).2 = calls w.
Proof.
  unfold extract_json.
  destruct (search BRACES response) as [group0|]; [|reflexivity].
  destruct (json_loads group0) as [v|e]; [reflexivity|].
  destruct (is_JSONDecodeError e); reflexivity.
Qed.

(** An exception of the decoder other than a syntax error leaves
    [extract_json] as it is. *)
Lemma run_extract_json_raise response group0 e api (w : world) :
  outermost_braces response = Some group0 ->
  json_loads group0 = Raise e ->
  is_JSONDecodeError e = false ->
  run (extract_json response) api w = (Raise e, w).
Proof.
  intros Hgroup Hloads Hclass. unfold extract_json.
  now rewrite search_braces, Hgroup, Hloads, Hclass.
Qed.

(** ** Response parser *)

(** C8, as amended: for every reply text, [extract_json] returns the
    decoding of the text between the first opening brace and the last
    closing brace after it, or [None], with one warning logged, when
    there is no such text or the decoder reports a syntax error; an
    exception of the decoder that is not a [JSONDecodeError] passes
    through it, with nothing logged.  It makes no request. *)
Theorem extract_json_outcome (response : pystr) api (w : world) :
  search BRACES response = outermost_braces response /\
  match outermost_braces response with
  | Some group0 =>
      match json_loads group0 with
      | Ok decoded => run (extract_json response) api w = (Ok decoded, w)
      | Raise e =>
          if is_JSONDecodeError e then
            exists w',
              run (extract_json response) api w = (Ok VNone, w') /\
              log w' = log w ++ [(WARNING, py "JSON 解析失败: " ++ exn_str e
                                             ++ py ", 跳过该条数据: " ++ response)] /\
              calls w' = calls w
          else run (extract_json response) api w = (Raise e, w)
      end
  | None =>
      exists w',
        run (extract_json response) api w = (Ok VNone, w') /\
        log w' = log w ++ [(WARNING, py "未找到 JSON 数据: " ++ response)] /\
        calls w' = calls w
  end.
Proof.
  split; [apply search_braces|].
  unfold extract_json. rewrite <- search_braces.
  destruct (search BRACES response) as [group0|].
  - destruct (json_loads group0) as [v|e]; [reflexivity|].
    destruct (is_JSONDecodeError e); [|reflexivity].
    eexists. split; [reflexivity|]. split; reflexivity.
  - eexists. split; [reflexivity|]. split; reflexivity.
Qed.


(** ** Task unit *)

(** One step through the [try] block: whatever the sub-computation
    returns the rest must be shown; whatever it raises is allowed. *)
Ltac task_step :=
  first [ apply all_results_send
        | apply all_results_extract_json
        | apply all_results_lift ];
  [intro | trivial].

Ltac task_ends_in_failure := split; [reflexivity|]; left; split; reflexivity.

Lemma process_sentence_try_results (index : Z) (sentence prompt : pystr) :
  all_results (fun r => r.1 = index /\ task_outcome sentence r.2) (fun _ => True)
    (process_sentence_try index sentence prompt).
Proof.
  unfold process_sentence_try.
  do 3 task_step.
  match goal with found : bool |- _ => destruct found end;
    [|task_ends_in_failure].
  do 4 task_step.
  match goal with found : bool |- _ => destruct found end;
    [|task_ends_in_failure].
  task_step. split; [reflexivity|]. right. eexists. split; reflexivity.
Qed.

Lemma process_sentence_results (index : Z) (sentence : pystr) :
  all_results (fun r => r.1 = index /\ task_outcome sentence r.2) (fun _ => False)
    (process_sentence index sentence).
Proof.
  unfold process_sentence. apply all_results_try.
  eapply all_results_weaken; [| |apply process_sentence_try_results].
  - auto.
  - intros e _. task_ends_in_failure.
Qed.

Lemma has_field_absent (parsed : pyvalue) :
  parsed = VNone \/ (exists d, parsed = VDict d /\ dict_has FIELD d = false) ->
  has_field parsed = Ok false.
Proof.
  intros [->|(d & -> & Hd)]; [reflexivity|].
  unfold has_field. destruct d; [reflexivity|]. cbn [truthy py_in]. now rewrite Hd.
Qed.

(** C7: when the draft reply does not parse, or parses to an object
    without the field [inner_monologue], the task ends in the failure
    outcome and the draft request is the only request it has made. *)
Theorem draft_failure_stops (index : Z) (sentence : pystr) api (w : world)
    (content : pystr) (more : list (option pystr)) (parsed : pyvalue) (w1 : world) :
  api (length (calls w)) [user (draft_prompt sentence)] = Ok (Some content :: more) ->
  run (extract_json (strip content)) api (request [user (draft_prompt sentence)] w)
    = (Ok parsed, w1) ->
  parsed = VNone \/ (exists d, parsed = VDict d /\ dict_has FIELD d = false) ->
  exists w',
    run (process_sentence index sentence) api w = (Ok (index, VNone), w') /\
    calls w' = calls w ++ [[user (draft_prompt sentence)]].
Proof.
  intros Hreply Hparse Hfail.
  unfold process_sentence. rewrite run_try_except.
  unfold process_sentence_try. rewrite run_bind.
  cbn [send_messages run]. rewrite Hreply. cbn [run].
  rewrite run_bind, Hparse, run_bind, (has_field_absent _ Hfail).
  cbn. eexists. split; [reflexivity|]. cbn [calls emit].
  pose proof (run_extract_json_calls (strip content) api
                (request [user (draft_prompt sentence)] w)) as Hc.
  rewrite Hparse in Hc. exact Hc.
Qed.

(** ** The pool *)

Lemma to_process_dispatched sentences start_index completed :
  dispatched sentences start_index (to_process sentences start_index completed).
Proof.
  intros idx s H. unfold to_process in H.
  apply list_elem_of_filter in H as [_ H].
  apply elem_of_lookup_imap in H as (i & s' & E & Hi).
  injection E as -> ->. eauto.
Qed.

Lemma list_getitem_dispatched (sentences : list pystr) start_index idx (i : nat) s :
  idx = (Z.of_nat i + start_index)%Z -> sentences !! i = Some s ->
  list_getitem sentences (idx - start_index) = Ok s.
Proof.
  intros -> Hi. unfold list_getitem.
  replace (Z.of_nat i + start_index - start_index)%Z with (Z.of_nat i) by lia.
  cbv zeta. destruct (Z.ltb_spec (Z.of_nat i) 0) as [Hneg|_]; [lia|].
  destruct (Z.ltb_spec (Z.of_nat i) 0) as [Hneg|_]; [lia|].
  now rewrite Nat2Z.id, Hi.
Qed.

Lemma pool_init_inv todo completed w :
  pool_inv todo (fs w) (pool_init todo completed w).
Proof.
  split; cbn; auto.
  - apply Forall_forall. auto.
  - lia.
Qed.

Lemma pool_step_inv sentences start_index todo files a p p' :
  dispatched sentences start_index todo ->
  pool_inv todo files p ->
  pool_step sentences start_index a p = Some p' ->
  pool_inv todo files p'.
Proof.
  intros Htodo [Herr Hq Hs Hcount Hfiles] Hstep.
  destruct a as [|slot reply|slot]; cbn [pool_step] in Hstep.
  - destruct (queue p) as [|[idx sent] rest] eqn:Eq; [discriminate|].
    destruct (decide (busy_workers p < MAX_WORKERS)%nat); [|discriminate].
    injection Hstep as <-. apply Forall_cons in Hq as [Hin Hq].
    split; cbn; auto.
    + apply Forall_app. split; [exact Hs|]. constructor; [|constructor].
      exists sent. split; [exact Hin|]. apply process_sentence_results.
    + rewrite length_app. cbn in *. lia.
  - destruct (started p !! slot) as [[idx t]|] eqn:El; [|discriminate].
    pose proof (Forall_lookup_1 _ _ _ _ Hs El) as (s & Hin & Hres).
    destruct t as [a|e|m k|r k]; try discriminate; injection Hstep as <-;
      (split; cbn; auto;
       [ apply Forall_insert; [exact Hs|]; exists s; split; [exact Hin|];
         cbn in Hres |- *; auto
       | rewrite length_insert; exact Hcount ]).
  - destruct (started p !! slot) as [[idx t]|] eqn:El; [|discriminate].
    pose proof (Forall_lookup_1 _ _ _ _ Hs El) as (s & Hin & Hres).
    cbn [fst snd] in Hin, Hres.
    pose proof (length_delete (started p) slot (mk_is_Some _ _ El)) as Hlen.
    pose proof (lookup_lt_Some _ _ _ El) as Hslot.
    destruct t as [[index result]|e|m k|r k]; try discriminate;
      [|now cbn in Hres].
    injection Hstep as <-. cbn in Hres. destruct Hres as [-> Hout].
    destruct (Htodo _ _ Hin) as (i & Hidx & Hi).
    unfold collect. rewrite Herr.
    destruct (truthy result) eqn:Et.
    + split; cbn; auto using Forall_delete. rewrite length_app. cbn. lia.
    + rewrite (list_getitem_dispatched _ _ _ _ _ Hidx Hi).
      split; cbn; auto using Forall_delete. rewrite length_app. cbn. lia.
Qed.

Lemma pool_run_inv sentences start_index todo files schedule p p' :
  dispatched sentences start_index todo ->
  pool_inv todo files p ->
  pool_run sentences start_index schedule p = Some p' ->
  pool_inv todo files p'.
Proof.
  intros Htodo. revert p. induction schedule as [|a schedule IH]; intros p Hinv Hrun.
  - now injection Hrun as <-.
  - cbn [pool_run] in Hrun.
    destruct (pool_step sentences start_index a p) as [p1|] eqn:E; [|discriminate].
    cbn in Hrun. eapply IH; [|exact Hrun]. eapply pool_step_inv; eauto.
Qed.

Lemma pool_reachable_inv sentences start_index completed schedule w p :
  pool_run sentences start_index schedule
    (pool_init (to_process sentences start_index completed) completed w) = Some p ->
  pool_inv (to_process sentences start_index completed) (fs w) p.
Proof.
  intros Hrun. eapply pool_run_inv; [apply to_process_dispatched| |exact Hrun].
  apply pool_init_inv.
Qed.

Lemma filter_all {A} (P : A -> Prop) `{forall x, Decision (P x)} (l : list A) :
  Forall P l -> filter P l = l.
Proof.
  induction 1 as [|x l Hx _ IH]; [reflexivity|].
  rewrite filter_cons_True by exact Hx. now rewrite IH.
Qed.

Lemma to_process_bypass sentences start_index :
  to_process sentences start_index ∅
  = imap (fun i s => (Z.of_nat i + start_index, s)%Z) sentences.
Proof.
  unfold to_process. apply filter_all, Forall_forall.
  intros item _. apply not_elem_of_empty.
Qed.

Lemma to_process_all_done sentences start_index (completed : gset Z) :
  (forall i : nat, (i < length sentences)%nat ->
                   (Z.of_nat i + start_index)%Z ∈ completed) ->
  to_process sentences start_index completed = [].
Proof.
  intros Hall. unfold to_process.
  destruct (filter _ _) as [|item rest] eqn:E; [reflexivity|]. exfalso.
  assert (Hin : item ∈ item :: rest) by apply list_elem_of_here.
  rewrite <- E in Hin. apply list_elem_of_filter in Hin as [Hnot Hin].
  apply elem_of_lookup_imap in Hin as (i & s & -> & Hi).
  apply Hnot. cbn. apply Hall. now apply lookup_lt_Some in Hi.
Qed.

(** ** Task unit and orchestrator *)

(** C1: a task returns its own index together with exactly one of the
    failure signal and a Generation Record; an exception raised inside
    the [try] block becomes the failure outcome under the same index; and
    in no reachable state of the pool has the collecting loop received an
    exception from a task. *)
Theorem process_sentence_outcome (index : Z) (sentence : pystr) api (w : world) :
  (exists result w',
      run (process_sentence index sentence) api w = (Ok (index, result), w') /\
      task_outcome sentence result) /\
  (forall e w1,
      run (process_sentence_try index sentence (draft_prompt sentence)) api w
        = (Raise e, w1) ->
      exists w',
        run (process_sentence index sentence) api w = (Ok (index, VNone), w')) /\
  (forall sentences start_index completed schedule w0 p,
      pool_run sentences start_index schedule
        (pool_init (to_process sentences start_index completed) completed w0)
        = Some p ->
      error (coll p) = None).
Proof.
  split; [|split].
  - pose proof (all_results_run _ _ _ api w
                  (process_sentence_results index sentence)) as H.
    destruct (run (process_sentence index sentence) api w) as [[[i r]|e] w'];
      cbn in H; [|contradiction].
    destruct H as [-> Hout]. eauto.
  - intros e w1 Hraise. unfold process_sentence.
    rewrite run_try_except, Hraise. cbn. eauto.
  - intros sentences start_index completed schedule w0 p Hrun.
    apply (inv_error _ _ _ (pool_reachable_inv _ _ _ _ _ _ Hrun)).
Qed.

(** C2: without bypass, when the checkpoint already holds the index of
    every input position, the run makes no request to the model, returns
    two empty lists and leaves every file as it was. *)
Theorem checkpointed_run_is_idle sentences start_index schedule (w : world)
    (completed : gset Z) :
  load_checkpoint w = Ok completed ->
  (forall i : nat, (i < length sentences)%nat ->
                   (Z.of_nat i + start_index)%Z ∈ completed) ->
  exists w',
    process_sentences_concurrently sentences start_index false schedule w
      = Some (Ok ([], []), w') /\
    calls w' = calls w /\ fs w' = fs w.
Proof.
  intros Hload Hall. unfold process_sentences_concurrently.
  rewrite Hload, (to_process_all_done _ _ _ Hall).
  eexists. split; [reflexivity|]. split; reflexivity.
Qed.

(** C4: under bypass no file is written, the checkpoint file in
    particular, at the end of the run or in any state of the pool on the
    way, whatever the tasks do; and nothing is filtered out: each input
    sentence ends in exactly one of the two result lists. *)
Theorem bypass_keeps_checkpoint sentences start_index schedule (w : world) out w' :
  process_sentences_concurrently sentences start_index true schedule w
    = Some (out, w') ->
  fs w' !! CHECKPOINT_FILE = fs w !! CHECKPOINT_FILE /\
  fs w' = fs w /\
  (forall prefix w0 p,
      pool_run sentences start_index prefix
        (pool_init (to_process sentences start_index ∅) ∅ w0) = Some p ->
      fs (pworld p) = fs w0) /\
  exists results fail_data,
    out = Ok (results, fail_data) /\
    (length results + length fail_data)%nat = length sentences.
Proof.
  unfold process_sentences_concurrently.
  assert (Hlen : length (to_process sentences start_index ∅) = length sentences).
  { rewrite to_process_bypass. apply length_imap. }
  assert (Hway : forall prefix w0 p,
             pool_run sentences start_index prefix
               (pool_init (to_process sentences start_index ∅) ∅ w0) = Some p ->
             fs (pworld p) = fs w0).
  { intros prefix w0 p Hp. apply (inv_files _ _ _ (pool_reachable_inv _ _ _ _ _ _ Hp)). }
  destruct (to_process sentences start_index ∅) as [|item rest] eqn:E.
  - intros [= <- <-]. cbn. repeat split; [exact Hway|].
    exists [], []. split; [reflexivity|exact Hlen].
  - intros Hrun.
    destruct (pool_run _ _ _ _) as [p|] eqn:Ep; [|discriminate]. cbn in Hrun.
    rewrite <- E in Ep. apply pool_reachable_inv in Ep.
    destruct Ep as [Herr _ _ Hcount Hfiles].
    destruct (drained p) eqn:Ed; [|discriminate].
    rewrite Herr in Hrun. injection Hrun as <- <-.
    cbn [fs emit] in Hfiles. rewrite Hfiles. repeat split; [exact Hway|].
    eexists _, _. split; [reflexivity|].
    unfold drained in Ed.
    destruct (queue p); [|discriminate]. destruct (started p); [|discriminate].
    cbn in Hcount, Hlen. rewrite E in Hcount. cbn in Hcount. lia.
Qed.

(** C9: in any state the pool can reach, when the loop receives a
    failure outcome from the future filed under [idx], the index it
    carries is [idx] and the record appended to the failure list holds
    [sentences[idx - start_index]], the sentence dispatched under [idx]. *)
Theorem failure_keeps_sentence sentences start_index completed schedule (w : world)
    p slot idx index result p' :
  pool_run sentences start_index schedule
    (pool_init (to_process sentences start_index completed) completed w) = Some p ->
  started p !! slot = Some (idx, Ret (index, result)) ->
  truthy result = false ->
  pool_step sentences start_index (Collect slot) p = Some p' ->
  index = idx /\
  exists s,
    (idx, s) ∈ to_process sentences start_index completed /\
    list_getitem sentences (idx - start_index) = Ok s /\
    fail_data (coll p') = fail_data (coll p) ++ [failure_record s] /\
    results (coll p') = results (coll p).
Proof.
  intros Hrun Hslot Hfalse Hstep.
  destruct (pool_reachable_inv _ _ _ _ _ _ Hrun) as [Herr _ Hs _ _].
  pose proof (Forall_lookup_1 _ _ _ _ Hs Hslot) as (s & Hin & Hres).
  cbn in Hin, Hres. destruct Hres as [-> _]. split; [reflexivity|].
  exists s. split; [exact Hin|].
  destruct (to_process_dispatched _ _ _ _ _ Hin) as (i & Hidx & Hi).
  pose proof (list_getitem_dispatched _ _ _ _ _ Hidx Hi) as Hget.
  split; [exact Hget|].
  cbn [pool_step] in Hstep. rewrite Hslot in Hstep. injection Hstep as <-.
  cbn [coll]. unfold collect. rewrite Herr, Hfalse, Hget. split; reflexivity.
Qed.

(** ** Result sink *)




(** ** Complete schedules exist

    The statements about the orchestrator assume a schedule under which
    the pool comes to rest.  There always is one: run the items one after
    the other. *)

Lemma pool_run_app sentences start_index (s1 s2 : list action) p :
  pool_run sentences start_index (s1 ++ s2) p
  = pool_run sentences start_index s1 p ≫= pool_run sentences start_index s2.
Proof.
  revert p. induction s1 as [|a s1 IH]; intros p; [reflexivity|].
  cbn [app pool_run]. destruct (pool_step sentences start_index a p); cbn; auto.
Qed.

Lemma single_task_finishes sentences start_index (api : list message -> api_reply)
    q idx (t : task (Z * pyvalue)) c w :
  exists schedule t' w',
    pool_run sentences start_index schedule (Pool q [(idx, t)] c w)
      = Some (Pool q [(idx, t')] c w') /\
    active t' = false.
Proof.
  revert w. induction t as [a|e|m k IH|r k IH]; intros w.
  - exists [], (Ret a), w. split; reflexivity.
  - exists [], (Throw e), w. split; reflexivity.
  - destruct (IH (api m) (request m w)) as (schedule & t' & w' & Hrun & Hdone).
    exists (Advance 0 (api m) :: schedule), t', w'. split; [exact Hrun|exact Hdone].
  - destruct (IH (emit r w)) as (schedule & t' & w' & Hrun & Hdone).
    exists (Advance 0 (Ok []) :: schedule), t', w'. split; [exact Hrun|exact Hdone].
Qed.

Lemma queue_drains sentences start_index (api : list message -> api_reply) q c w :
  exists schedule p,
    pool_run sentences start_index schedule (Pool q [] c w) = Some p /\
    drained p = true.
Proof.
  revert c w. induction q as [|[idx sent] q IH]; intros c w.
  - exists [], (Pool [] [] c w). split; reflexivity.
  - destruct (single_task_finishes sentences start_index api q idx
                (process_sentence idx sent) c w)
      as (s1 & t' & w' & Hrun & Hdone).
    assert (Hcollect : exists c',
               pool_step sentences start_index (Collect 0) (Pool q [(idx, t')] c w')
               = Some (Pool q [] c' w')).
    { destruct t' as [[index result]|e|m k|r k]; try discriminate;
        eexists; reflexivity. }
    destruct Hcollect as [c' Hcollect].
    destruct (IH c' w') as (s2 & p & Hrest & Hdrained).
    exists (Start :: s1 ++ Collect 0 :: s2), p. split; [|exact Hdrained].
    cbn [pool_run pool_step queue started coll pworld].
    change (busy_workers (Pool ((idx, sent) :: q) [] c w)) with O.
    destruct (decide (0 < MAX_WORKERS)%nat) as [_|Hn];
      [|exfalso; apply Hn; unfold MAX_WORKERS; lia].
    cbn [mbind option_bind app]. rewrite pool_run_app, Hrun.
    cbn [mbind option_bind pool_run]. rewrite Hcollect. exact Hrest.
Qed.

Lemma complete_schedule_exists sentences start_index ignore_checkpoint (w : world) :
  exists schedule result,
    process_sentences_concurrently sentences start_index ignore_checkpoint schedule w
    = Some result.
Proof.
  unfold process_sentences_concurrently.
  destruct (if ignore_checkpoint then Ok ∅ else load_checkpoint w) as [completed|e];
    [|exists []; eauto].
  destruct (to_process sentences start_index completed) as [|item rest];
    [exists []; eauto|].
  destruct (queue_drains sentences start_index (fun _ => Ok []) (item :: rest)
              (Collector [] [] completed None)
              (emit (INFO, py "开始并发处理 "
                             ++ py_str_int (Z.of_nat (length sentences))
                             ++ py " 条自我肯定语...") w))
    as (schedule & p & Hrun & Hdrained).
  exists schedule. unfold pool_init. rewrite Hrun. cbn [mbind option_bind].
  rewrite Hdrained. destruct (error (coll p)); eauto.
Qed.

(** ** Further properties of the worker code *)

Lemma all_ends_run {A} (P : list (list message) -> list log_record -> outcome A -> Prop)
    (t : task A) api (w : world) c0 l0 cs ls :
  calls w = c0 ++ cs -> log w = l0 ++ ls ->
  all_ends P cs ls t ->
  exists cs' ls',
    calls (run t api w).2 = c0 ++ cs' /\
    log (run t api w).2 = l0 ++ ls' /\
    P cs' ls' (run t api w).1.
Proof.
  revert w cs ls. induction t as [a|e|m k IH|r k IH]; intros w cs ls Hc Hl H; cbn in *.
  - eauto.
  - eauto.
  - apply (IH _ (request m w) (cs ++ [m]) ls); [|exact Hl|apply H].
    cbn. now rewrite Hc, app_assoc.
  - apply (IH (emit r w) cs (ls ++ [r])); [exact Hc| |exact H].
    cbn. now rewrite Hl, app_assoc.
Qed.

Lemma all_ends_bind {A B}
    (P : list (list message) -> list log_record -> outcome B -> Prop)
    (t : task A) (f : A -> task B) cs ls :
  all_ends (fun cs ls o =>
              match o with
              | Ok a => all_ends P cs ls (f a)
              | Raise e => P cs ls (Raise e)
              end) cs ls t ->
  all_ends P cs ls (t ≫= f).
Proof.
  revert cs ls. induction t as [a|e|m k IH|r k IH]; intros cs ls H; cbn in *; auto.
Qed.

Lemma all_ends_try {A}
    (P : list (list message) -> list log_record -> outcome A -> Prop)
    (t : task A) (h : exn -> task A) cs ls :
  all_ends (fun cs ls o =>
              match o with
              | Ok a => P cs ls (Ok a)
              | Raise e => all_ends P cs ls (h e)
              end) cs ls t ->
  all_ends P cs ls (try_except t h).
Proof.
  revert cs ls. induction t as [a|e|m k IH|r k IH]; intros cs ls H; cbn in *; auto.
Qed.

Lemma all_ends_extract_json
    (P : list (list message) -> list log_record -> outcome pyvalue -> Prop)
    response cs ls :
  (forall v, P cs ls (Ok v)) ->
  (forall msg, P cs (ls ++ [(WARNING, msg)]) (Ok VNone)) ->
  (forall e, P cs ls (Raise e)) ->
  all_ends P cs ls (extract_json response).
Proof.
  intros Hok Hnone Hraise. unfold extract_json.
  destruct (search BRACES response) as [group0|]; [|cbn; auto].
  destruct (json_loads group0) as [v|e]; [cbn; auto|].
  destruct (is_JSONDecodeError e); cbn; auto.
Qed.

Lemma all_ends_lift {A}
    (P : list (list message) -> list log_record -> outcome A -> Prop)
    (o : outcome A) cs ls :
  P cs ls o -> all_ends P cs ls (lift o).
Proof. destruct o; cbn; auto. Qed.

Lemma snoc_not_nil {A} (l : list A) (x : A) : l ++ [x] <> [].
Proof. destruct l; discriminate. Qed.

Ltac trace_failure :=
  eexists; split; [reflexivity|]; right; split; [reflexivity|];
  split; [first [apply snoc_not_nil | discriminate]|];
  first [left; reflexivity | right; eexists; reflexivity].

Lemma process_sentence_trace (index : Z) (sentence : pystr) :
  all_ends (task_trace index sentence) [] [] (process_sentence index sentence).
Proof.
  unfold process_sentence. apply all_ends_try.
  unfold process_sentence_try. apply all_ends_bind.
  cbn [send_messages all_ends app].
  intros [[|[content|] more]|e]; cbn [all_ends]; try trace_failure.
  apply all_ends_bind, all_ends_extract_json;
    [intros parsed | intros msg | intros e; cbn; trace_failure].
  2:{ cbn. trace_failure. }
  apply all_ends_bind, all_ends_lift.
  destruct (has_field parsed) as [[|]|e]; cbn [all_ends]; try (cbn; trace_failure).
  apply all_ends_bind, all_ends_lift.
  destruct (py_getitem parsed FIELD) as [draft|e]; cbn [all_ends]; try trace_failure.
  apply all_ends_bind. cbn [send_messages all_ends app].
  intros [[|[content2|] more2]|e]; cbn [all_ends]; try trace_failure.
  apply all_ends_bind, all_ends_extract_json;
    [intros parsed2 | intros msg | intros e; cbn; trace_failure].
  2:{ cbn. trace_failure. }
  apply all_ends_bind, all_ends_lift.
  destruct (has_field parsed2) as [[|]|e]; cbn [all_ends]; try (cbn; trace_failure).
  apply all_ends_bind, all_ends_lift.
  destruct (py_getitem parsed2 FIELD) as [text|e]; cbn [all_ends]; try trace_failure.
  cbn. eexists. split; [reflexivity|]. left. split; [reflexivity|].
  split; [reflexivity|]. eexists. reflexivity.
Qed.

(** X4: a task makes one request or two.  The first is the draft prompt
    as the only turn; the second, when made, is that same turn followed
    by one user turn holding the critique prompt. *)
Theorem process_sentence_requests (index : Z) (sentence : pystr) api (w : world) :
  calls (run (process_sentence index sentence) api w).2
    = calls w ++ [draft_request sentence] \/
  exists draft,
    calls (run (process_sentence index sentence) api w).2
      = calls w ++ [draft_request sentence; critique_request sentence draft].
Proof.
  destruct (all_ends_run _ _ api w (calls w) (log w) [] []
              (eq_sym (app_nil_r _)) (eq_sym (app_nil_r _))
              (process_sentence_trace index sentence))
    as (cs & ls & Hcalls & _ & result & _ & Hcases).
  rewrite Hcalls.
  destruct Hcases as [(_ & _ & draft & ->)|(_ & _ & [->|(draft & ->)])]; eauto.
Qed.

(** X5: a task that returns a record has made both requests and logged
    nothing; a task that returns the failure signal has logged at least
    one record. *)
Theorem process_sentence_logging (index : Z) (sentence : pystr) api (w : world) :
  exists result w',
    run (process_sentence index sentence) api w = (Ok (index, result), w') /\
    if truthy result
    then log w' = log w /\ length (calls w') = (length (calls w) + 2)%nat
    else exists r rest, log w' = log w ++ r :: rest.
Proof.
  destruct (all_ends_run _ _ api w (calls w) (log w) [] []
              (eq_sym (app_nil_r _)) (eq_sym (app_nil_r _))
              (process_sentence_trace index sentence))
    as (cs & ls & Hcalls & Hlog & result & Hres & Hcases).
  destruct (run (process_sentence index sentence) api w) as [o w'].
  cbn [fst snd] in *. subst o. exists result, w'. split; [reflexivity|].
  destruct Hcases as [(-> & -> & draft & ->)|(-> & Hls & _)].
  - rewrite Hlog, Hcalls, app_nil_r, length_app. cbn. auto.
  - destruct ls as [|r rest]; [congruence|]. eauto.
Qed.

Lemma dict_get_has_field (d : dict) (v : pyvalue) :
  dict_get FIELD d = Some v -> has_field (VDict d) = Ok true.
Proof.
  intros H. unfold has_field. destruct d as [|kv d]; [discriminate|].
  cbn [truthy py_in]. f_equal. unfold dict_has.
  induction (kv :: d) as [|[k1 v1] rest IH]; [discriminate|].
  cbn [dict_get existsb fst] in *. destruct (str_eqb FIELD k1); [reflexivity|].
  cbn. auto.
Qed.

Lemma run_send_messages_ok messages api (w : world) content more :
  api (length (calls w)) messages = Ok (Some content :: more) ->
  run (send_messages messages) api w = (Ok (strip content), request messages w).
Proof. intros H. cbn [send_messages run]. now rewrite H. Qed.

Lemma run_send_messages_world messages api (w : world) :
  (run (send_messages messages) api w).2 = request messages w.
Proof.
  cbn [send_messages run].
  destruct (api (length (calls w)) messages) as [[|[content|] more]|e]; reflexivity.
Qed.

Lemma run_extract_json_ok response group0 v api (w : world) :
  search BRACES response = Some group0 -> json_loads group0 = Ok v ->
  run (extract_json response) api w = (Ok v, w).
Proof. intros Hs Hl. unfold extract_json. now rewrite Hs, Hl. Qed.

Lemma length_calls_request messages (w : world) :
  length (calls (request messages w)) = S (length (calls w)).
Proof. cbn. rewrite length_app. cbn. lia. Qed.

(** Rewrites the run of the [try] block through a draft stage whose
    reply holds an object with the field. *)
Ltac through_draft_stage Hreply Hs Hl Hget :=
  unfold critique_request, draft_request in *;
  unfold process_sentence; rewrite run_try_except;
  unfold process_sentence_try; cbv zeta;
  rewrite run_bind, (run_send_messages_ok _ _ _ _ _ Hreply);
  rewrite run_bind, (run_extract_json_ok _ _ _ _ _ Hs Hl);
  rewrite run_bind, (dict_get_has_field _ _ Hget); cbn [lift run];
  rewrite run_bind; cbn [py_getitem]; rewrite Hget; cbn [lift run].

(** X6: when the draft reply and the critique reply each hold an object
    with the field, the task returns the record made of the sentence, the
    critique text escaped by [clean_value] and the model name; the
    critique prompt carries the draft text; nothing is logged. *)
Theorem two_stage_success (index : Z) (sentence : pystr) api (w : world)
    content1 more1 group1 d1 draft content2 more2 group2 d2 text :
  api (length (calls w)) (draft_request sentence) = Ok (Some content1 :: more1) ->
  search BRACES (strip content1) = Some group1 ->
  json_loads group1 = Ok (VDict d1) ->
  dict_get FIELD d1 = Some draft ->
  api (S (length (calls w))) (critique_request sentence (format_value draft))
    = Ok (Some content2 :: more2) ->
  search BRACES (strip content2) = Some group2 ->
  json_loads group2 = Ok (VDict d2) ->
  dict_get FIELD d2 = Some text ->
  run (process_sentence index sentence) api w
  = (Ok (index, generation_record sentence text),
     World (fs w) (log w)
           (calls w ++ [draft_request sentence;
                        critique_request sentence (format_value draft)])).
Proof.
  intros Hreply1 Hs1 Hl1 Hget1 Hreply2 Hs2 Hl2 Hget2.
  through_draft_stage Hreply1 Hs1 Hl1 Hget1.
  rewrite <- length_calls_request with (messages := [user (draft_prompt sentence)])
    in Hreply2.
  rewrite run_bind, (run_send_messages_ok _ _ _ _ _ Hreply2).
  rewrite run_bind, (run_extract_json_ok _ _ _ _ _ Hs2 Hl2).
  rewrite run_bind, (dict_get_has_field _ _ Hget2). cbn [lift run].
  rewrite run_bind. cbn [py_getitem]. rewrite Hget2. cbn.
  unfold request, generation_record. cbn [fs log calls]. now rewrite <- app_assoc.
Qed.

(** X7: when the draft stage succeeds but the critique reply does not
    parse, or parses to an object without the field, the task returns the
    failure signal after both requests. *)
Theorem critique_failure_fails (index : Z) (sentence : pystr) api (w : world)
    content1 more1 group1 d1 draft content2 more2 parsed w3 :
  api (length (calls w)) (draft_request sentence) = Ok (Some content1 :: more1) ->
  search BRACES (strip content1) = Some group1 ->
  json_loads group1 = Ok (VDict d1) ->
  dict_get FIELD d1 = Some draft ->
  api (S (length (calls w))) (critique_request sentence (format_value draft))
    = Ok (Some content2 :: more2) ->
  run (extract_json (strip content2)) api
      (request (critique_request sentence (format_value draft))
         (request (draft_request sentence) w)) = (Ok parsed, w3) ->
  parsed = VNone \/ (exists d, parsed = VDict d /\ dict_has FIELD d = false) ->
  exists w',
    run (process_sentence index sentence) api w = (Ok (index, VNone), w') /\
    calls w' = calls w ++ [draft_request sentence;
                           critique_request sentence (format_value draft)].
Proof.
  intros Hreply1 Hs1 Hl1 Hget1 Hreply2 Hparse Hfail.
  through_draft_stage Hreply1 Hs1 Hl1 Hget1.
  rewrite <- length_calls_request with (messages := [user (draft_prompt sentence)])
    in Hreply2.
  rewrite run_bind, (run_send_messages_ok _ _ _ _ _ Hreply2).
  rewrite run_bind, Hparse, run_bind, (has_field_absent _ Hfail).
  cbn. eexists. split; [reflexivity|]. cbn [calls emit].
  pose proof (run_extract_json_calls (strip content2) api
                (request ([user (draft_prompt sentence)]
                          ++ [user (check_prompt (format_value draft))])
                   (request [user (draft_prompt sentence)] w))) as Hc.
  rewrite Hparse in Hc. cbn [snd] in Hc. rewrite Hc.
  unfold request. cbn [fs log calls app]. now rewrite <- app_assoc.
Qed.

Lemma run_transport_failure (index : Z) (sentence : pystr) api (w : world) e w1 :
  run (send_messages (draft_request sentence)) api w = (Raise e, w1) ->
  run (process_sentence index sentence) api w
  = (Ok (index, VNone),
     emit (error_record sentence e) (request (draft_request sentence) w)).
Proof.
  intros Hsend.
  pose proof (run_send_messages_world (draft_request sentence) api w) as Hw.
  rewrite Hsend in Hw. cbn [snd] in Hw. subst w1.
  unfold process_sentence. rewrite run_try_except.
  unfold process_sentence_try. cbv zeta. rewrite run_bind.
  change [user (draft_prompt sentence)] with (draft_request sentence).
  rewrite Hsend. reflexivity.
Qed.

(** X8: when the first call of [send_messages] raises, be it an
    exception of the API or a completion without choices or without text,
    the task returns the failure signal after that one request and logs
    one ERROR record naming the sentence and the exception; apart from
    the log file, which receives that record, no file changes. *)
Theorem transport_failure_logged (index : Z) (sentence : pystr) api (w : world) e w1 :
  run (send_messages (draft_request sentence)) api w = (Raise e, w1) ->
  exists w',
    run (process_sentence index sentence) api w = (Ok (index, VNone), w') /\
    log w' = log w ++ [error_record sentence e] /\
    calls w' = calls w ++ [draft_request sentence] /\
    (forall path, path <> LOG_FILE -> fs w' !! path = fs w !! path).
Proof.
  intros Hsend. eexists. split; [exact (run_transport_failure _ _ _ _ _ _ Hsend)|].
  split; [reflexivity|]. split; [reflexivity|]. intros path _. reflexivity.
Qed.

Lemma escape_without_newline (s : pystr) :
  NEWLINE ∉ s -> flat_map escape_char s = s.
Proof.
  induction s as [|c s IH]; [reflexivity|]. intros Hnot.
  apply not_elem_of_cons in Hnot as [Hc Hs]. cbn [flat_map].
  unfold escape_char at 1. destruct (N.eqb_spec c NEWLINE); [congruence|].
  cbn. now rewrite IH.
Qed.

(** X1: [clean_value] returns a text without newline as it is, and
    applying it a second time changes nothing. *)
Theorem clean_value_idempotent (value : pyvalue) :
  clean_value (clean_value value) = clean_value value /\
  (forall s, value = VStr s -> NEWLINE ∉ s -> clean_value value = value).
Proof.
  split.
  - destruct value; try reflexivity. cbn [clean_value].
    rewrite !replace_newline.
    now rewrite (escape_without_newline _ (escaped_has_no_newline _)).
  - intros s -> Hs. cbn [clean_value].
    now rewrite replace_newline, escape_without_newline.
Qed.

(** X2: [extract_json] raises exactly when the decoder raises, on the
    text from the first opening brace to the last closing brace, an
    exception that is not a [JSONDecodeError]; it then passes that
    exception on and writes nothing to the log. *)
Theorem extract_json_raises (response : pystr) api (w : world) (e : exn) :
  ((run (extract_json response) api w).1 = Raise e <->
   exists group0,
     outermost_braces response = Some group0 /\
     json_loads group0 = Raise e /\ is_JSONDecodeError e = false) /\
  ((run (extract_json response) api w).1 = Raise e ->
   (run (extract_json response) api w).2 = w).
Proof.
  unfold extract_json. rewrite <- search_braces.
  destruct (search BRACES response) as [group0|].
  - destruct (json_loads group0) as [v|e'] eqn:El.
    + cbn. split; [|discriminate]. split; [discriminate|].
      intros (g & [= <-] & Hl & _). congruence.
    + destruct (is_JSONDecodeError e') eqn:Ec; cbn.
      * split; [|discriminate]. split; [discriminate|].
        intros (g & [= <-] & Hl & Hc). congruence.
      * split; [|reflexivity]. split.
        -- intros [= <-]. eauto.
        -- intros (g & [= <-] & Hl & _). congruence.
  - cbn. split; [|discriminate]. split; [discriminate|].
    intros (g & Hg & _). discriminate.
Qed.

Lemma from_first_skip (c : N) (p t : pystr) :
  c ∉ p -> from_first c (p ++ c :: t) = Some (c :: t).
Proof.
  induction p as [|x p IH]; intros Hnot; cbn [app from_first].
  - now rewrite N.eqb_refl.
  - apply not_elem_of_cons in Hnot as [Hx Hp].
    destruct (N.eqb_spec x c); [congruence | auto].
Qed.

Lemma upto_last_keep (c : N) (a suffix : pystr) :
  c ∉ suffix -> upto_last c (a ++ [c] ++ suffix) = Some (a ++ [c]).
Proof.
  intros Hnot. unfold upto_last.
  rewrite !rev_app_distr. cbn [rev app]. rewrite <- app_assoc. cbn [app].
  rewrite from_first_skip.
  - cbn. now rewrite rev_involutive.
  - intros Hin. apply Hnot. apply list_elem_of_In.
    apply list_elem_of_In in Hin. now apply in_rev.
Qed.

Lemma outermost_braces_wrapped (prefix inner suffix : pystr) :
  LBRACE ∉ prefix -> RBRACE ∉ suffix ->
  outermost_braces (prefix ++ (LBRACE :: inner ++ [RBRACE]) ++ suffix)
  = Some (LBRACE :: inner ++ [RBRACE]).
Proof.
  intros Hpre Hsuf. unfold outermost_braces.
  cbn [app]. rewrite (from_first_skip _ _ _ Hpre).
  rewrite <- app_assoc. now rewrite (upto_last_keep _ _ _ Hsuf).
Qed.

(** X3: text before an object that holds no opening brace, and text
    after it that holds no closing brace, do not change what
    [extract_json] returns. *)
Theorem extract_json_ignores_chatter (prefix inner suffix : pystr) api (w : world) :
  LBRACE ∉ prefix -> RBRACE ∉ suffix ->
  (run (extract_json (prefix ++ (LBRACE :: inner ++ [RBRACE]) ++ suffix)) api w).1
  = (run (extract_json (LBRACE :: inner ++ [RBRACE])) api w).1.
Proof.
  intros Hpre Hsuf. unfold extract_json.
  rewrite !search_braces, (outermost_braces_wrapped _ _ _ Hpre Hsuf).
  pose proof (outermost_braces_wrapped [] inner [] (not_elem_of_nil _)
                (not_elem_of_nil _)) as Hself.
  cbn [app] in Hself. rewrite app_nil_r in Hself. rewrite Hself.
  destruct (json_loads (LBRACE :: inner ++ [RBRACE])) as [v|e]; [reflexivity|].
  destruct (is_JSONDecodeError e); reflexivity.
Qed.

(** ** Further properties of the checkpoint store *)

Lemma lstrip_app (a b : pystr) :
  lstrip (a ++ b) = match lstrip a with [] => lstrip b | _ :: _ => lstrip a ++ b end.
Proof.
  induction a as [|c a IH]; [reflexivity|]. cbn [app lstrip].
  destruct (isspace c); [exact IH | reflexivity].
Qed.

Lemma lstrip_padding (pad t : pystr) :
  Forall (fun c => isspace c = true) pad -> lstrip (pad ++ t) = lstrip t.
Proof. intros H. now rewrite lstrip_app, (lstrip_spaces _ H). Qed.

Lemma rstrip_padding (t pad : pystr) :
  Forall (fun c => isspace c = true) pad -> rstrip (t ++ pad) = rstrip t.
Proof.
  intros H. unfold rstrip. rewrite rev_app_distr, lstrip_padding; [reflexivity|].
  now apply List.Forall_rev.
Qed.

Lemma strip_padding (pad1 t pad2 : pystr) :
  Forall (fun c => isspace c = true) pad1 ->
  Forall (fun c => isspace c = true) pad2 ->
  strip (pad1 ++ t ++ pad2) = strip t.
Proof.
  intros H1 H2. unfold strip. rewrite (lstrip_padding _ _ H1), lstrip_app.
  destruct (lstrip t) as [|c r] eqn:E.
  - now rewrite (lstrip_spaces _ H2).
  - now apply rstrip_padding.
Qed.

(** X9: whitespace before and after the text of the checkpoint file,
    such as a final newline, does not change what [load_checkpoint]
    returns. *)
Theorem load_checkpoint_ignores_padding (w1 w2 : world) (text pad1 pad2 : pystr) :
  fs w1 !! CHECKPOINT_FILE = Some text ->
  fs w2 !! CHECKPOINT_FILE = Some (pad1 ++ text ++ pad2) ->
  Forall (fun c => isspace c = true) pad1 ->
  Forall (fun c => isspace c = true) pad2 ->
  load_checkpoint w2 = load_checkpoint w1.
Proof.
  intros Hf1 Hf2 H1 H2. unfold load_checkpoint.
  now rewrite Hf1, Hf2, (strip_padding _ _ _ H1 H2).
Qed.

Lemma int_of_error (token : pystr) (e : exn) :
  int_of token = Raise e -> exn_class_of e = ValueError.
Proof. unfold int_of. destruct (py_int token); [discriminate|]. now intros [= <-]. Qed.

Lemma map_int_error (tokens : list pystr) (e : exn) :
  map_int tokens = Raise e -> exn_class_of e = ValueError.
Proof.
  induction tokens as [|t rest IH]; [discriminate|]. cbn [map_int].
  destruct (int_of t) as [z|e'] eqn:Et; cbn.
  - destruct (map_int rest) as [zs|e'']; cbn; [discriminate|].
    intros [= <-]. now apply IH.
  - intros [= <-]. now apply (int_of_error t).
Qed.

Lemma map_int_empty_token (tokens : list pystr) :
  exists e, map_int (tokens ++ [[]]) = Raise e.
Proof.
  induction tokens as [|t rest [e IH]]; [eexists; reflexivity|].
  cbn [app map_int]. destruct (int_of t) as [z|e']; cbn; [|eauto].
  rewrite IH. cbn. eauto.
Qed.

Lemma split_trailing_comma (s cur : pystr) :
  exists tokens, split_from [44] 0 cur (s ++ [44]) = tokens ++ [[]].
Proof.
  revert cur. induction s as [|c s IH]; intros cur.
  - exists [rev cur]. reflexivity.
  - cbn [app split_from startswith length pred].
    destruct (44 =? c); cbn [andb].
    + destruct (IH []) as [tokens ->]. now exists (rev cur :: tokens).
    + apply IH.
Qed.

(** A checkpoint whose text ends in a comma cannot be loaded. *)
Lemma trailing_comma_raises (w : world) (text body : pystr) :
  fs w !! CHECKPOINT_FILE = Some text ->
  strip text = body ++ [44] ->
  exists e, load_checkpoint w = Raise e /\ exn_class_of e = ValueError.
Proof.
  intros Hfile Hstrip. unfold load_checkpoint. rewrite Hfile, Hstrip.
  destruct (body ++ [44]) as [|c r] eqn:E; [now destruct body|].
  rewrite <- E, py_comma. unfold split.
  destruct (split_trailing_comma body []) as [tokens ->].
  destruct (map_int_empty_token tokens) as [e He].
  exists e. rewrite He. split; [reflexivity|].
  now apply (map_int_error (tokens ++ [[]])).
Qed.

(** X10: a checkpoint file whose text, blanks aside, ends in a comma
    makes [load_checkpoint] raise a [ValueError]. *)
Theorem load_checkpoint_trailing_comma (w : world) (text body : pystr) :
  fs w !! CHECKPOINT_FILE = Some text ->
  strip text = body ++ [44] ->
  exists e, load_checkpoint w = Raise e /\ exn_class_of e = ValueError.
Proof. apply trailing_comma_raises. Qed.


(** ** Further properties of the orchestrator *)

Lemma dispatched_unique sentences start_index todo idx s s' :
  dispatched sentences start_index todo ->
  (idx, s) ∈ todo -> (idx, s') ∈ todo -> s = s'.
Proof.
  intros Htodo H1 H2.
  destruct (Htodo _ _ H1) as (i & Hi & Hs).
  destruct (Htodo _ _ H2) as (j & Hj & Hs').
  assert (i = j) by lia. subst j. congruence.
Qed.

Lemma pool_ledger_init todo completed w :
  pool_ledger todo completed (pool_init todo completed w) [] [] [].
Proof.
  split; cbn; auto.
  - now rewrite app_nil_r.
  - now rewrite union_empty_r_L.
Qed.

Lemma pool_ledger_step sentences start_index todo files completed a p p'
    running succeeded failed :
  dispatched sentences start_index todo ->
  pool_inv todo files p ->
  pool_ledger todo completed p running succeeded failed ->
  pool_step sentences start_index a p = Some p' ->
  exists running' succeeded' failed',
    pool_ledger todo completed p' running' succeeded' failed'.
Proof.
  intros Htodo [Herr _ Hs _ _] [Hitems Hstarted Hres Hfail Hdone] Hstep.
  destruct a as [|slot reply|slot]; cbn [pool_step] in Hstep.
  - destruct (queue p) as [|[idx sent] rest] eqn:Eq; [discriminate|].
    destruct (decide (busy_workers p < MAX_WORKERS)%nat); [|discriminate].
    injection Hstep as <-.
    exists (running ++ [(idx, sent)]), succeeded, failed.
    split; cbn [queue started coll pworld]; auto.
    + rewrite <- Hitems. solve_Permutation.
    + now rewrite !fmap_app, Hstarted.
  - destruct (started p !! slot) as [[idx t]|] eqn:El; [|discriminate].
    assert (Hkeep : forall t', fst <$> <[slot := (idx, t')]> (started p)
                               = fst <$> started p).
    { intros t'. rewrite list_fmap_insert. apply list_insert_id.
      now rewrite list_lookup_fmap, El. }
    destruct t as [a|e|m k|r k]; try discriminate; injection Hstep as <-;
      exists running, succeeded, failed;
      (split; cbn [queue started coll pworld]; auto; now rewrite Hkeep).
  - destruct (started p !! slot) as [[idx t]|] eqn:El; [|discriminate].
    pose proof (Forall_lookup_1 _ _ _ _ Hs El) as (s' & Hin' & Hout).
    cbn [fst snd] in Hin', Hout.
    assert (Hitem : exists s, running !! slot = Some (idx, s)).
    { pose proof (f_equal (fun l => l !! slot) Hstarted) as Hl. cbn beta in Hl.
      rewrite !list_lookup_fmap, El in Hl.
      destruct (running !! slot) as [[idx' s]|]; [|discriminate].
      injection Hl as ->. eauto. }
    destruct Hitem as [s Hrun].
    assert (Hin : (idx, s) ∈ todo).
    { rewrite <- Hitems. rewrite !elem_of_app. right. left.
      apply list_elem_of_lookup. eauto. }
    assert (s' = s) by (eapply dispatched_unique; eauto). subst s'.
    pose proof (delete_Permutation _ _ _ Hrun) as Hperm.
    set (rest := delete slot running) in *.
    assert (Hrest : fst <$> rest = fst <$> delete slot (started p)).
    { unfold rest. now rewrite !list_fmap_delete, Hstarted. }
    destruct t as [[index result]|e|m k|r k]; try discriminate;
      [|now cbn in Hout].
    injection Hstep as <-. cbn in Hout. destruct Hout as [-> Hout].
    destruct (Htodo _ _ Hin) as (i & Hidx & Hi).
    unfold collect. rewrite Herr.
    destruct (truthy result) eqn:Et.
    + destruct Hout as [[-> _]|(text & -> & _)]; [discriminate|].
      exists rest, (succeeded ++ [(idx, s)]), failed.
      split; cbn [queue started coll pworld results fail_data completed_indexes];
        auto.
      * rewrite <- Hitems, Hperm. solve_Permutation.
      * apply Forall2_app; [exact Hres|]. constructor; [|constructor]. eauto.
      * rewrite fmap_app, list_to_set_app_L, Hdone.
        change (fst <$> [(idx, s)]) with [idx].
        now rewrite list_to_set_singleton_L, (assoc_L (∪)).
    + rewrite (list_getitem_dispatched _ _ _ _ _ Hidx Hi).
      exists rest, succeeded, (failed ++ [(idx, s)]).
      split; cbn [queue started coll pworld results fail_data completed_indexes];
        auto.
      * rewrite <- Hitems, Hperm. solve_Permutation.
      * now rewrite fmap_app, Hfail.
Qed.

Lemma pool_ledger_run sentences start_index todo files completed schedule p p'
    running succeeded failed :
  dispatched sentences start_index todo ->
  pool_inv todo files p ->
  pool_ledger todo completed p running succeeded failed ->
  pool_run sentences start_index schedule p = Some p' ->
  exists running' succeeded' failed',
    pool_ledger todo completed p' running' succeeded' failed'.
Proof.
  intros Htodo. revert p running succeeded failed.
  induction schedule as [|a schedule IH]; intros p running succeeded failed Hinv Hled Hrun.
  - injection Hrun as <-. eauto.
  - cbn [pool_run] in Hrun.
    destruct (pool_step sentences start_index a p) as [p1|] eqn:E; [|discriminate].
    cbn in Hrun.
    destruct (pool_ledger_step _ _ _ _ _ _ _ _ _ _ _ Htodo Hinv Hled E)
      as (r1 & s1 & f1 & Hled1).
    eapply IH; [|exact Hled1|exact Hrun]. eapply pool_step_inv; eauto.
Qed.

(** What a completed run returns, in terms of the ledger. *)
Lemma orchestrator_ledger sentences start_index (ignore_checkpoint : bool) schedule
    (w : world) (completed : gset Z) results fail_data w' :
  (if ignore_checkpoint then Ok (∅ : gset Z) else load_checkpoint w) = Ok completed ->
  process_sentences_concurrently sentences start_index ignore_checkpoint schedule w
    = Some (Ok (results, fail_data), w') ->
  exists succeeded failed,
    succeeded ++ failed ≡ₚ to_process sentences start_index completed /\
    Forall2 (fun r item => exists text, r = generation_record item.2 text)
            results succeeded /\
    fail_data = (fun item => failure_record item.2) <$> failed /\
    fs w' =
      match to_process sentences start_index completed with
      | [] => fs w
      | _ :: _ =>
          if ignore_checkpoint then fs w
          else <[CHECKPOINT_FILE :=
                   join (py ",")
                     (map py_str_int
                        (set_order (completed ∪ list_to_set (fst <$> succeeded))))]>
                 (fs w)
      end.
Proof.
  intros Hload. unfold process_sentences_concurrently. rewrite Hload.
  destruct (to_process sentences start_index completed) as [|item rest] eqn:E.
  - intros [= <- <- <-]. exists [], []. repeat split; constructor.
  - intros Hrun.
    destruct (pool_run _ _ _ _) as [p|] eqn:Ep; [|discriminate]. cbn in Hrun.
    rewrite <- E in Ep.
    pose proof (pool_reachable_inv _ _ _ _ _ _ Ep) as Hinv.
    destruct (pool_ledger_run _ _ _ _ _ _ _ _ _ _ _
                (to_process_dispatched _ _ _) (pool_init_inv _ _ _)
                (pool_ledger_init _ _ _) Ep)
      as (running & succeeded & failed & [Hitems Hstarted Hres Hfail Hdone]).
    destruct Hinv as [Herr _ _ _ Hfiles].
    destruct (drained p) eqn:Ed; [|discriminate].
    rewrite Herr in Hrun. injection Hrun as <- <- <-.
    unfold drained in Ed.
    destruct (queue p); [|discriminate].
    destruct (started p); [|discriminate].
    apply fmap_nil_inv in Hstarted. subst running. cbn [app] in Hitems.
    rewrite E in Hitems.
    exists succeeded, failed. split; [exact Hitems|]. split; [exact Hres|].
    split; [exact Hfail|]. cbn [fs emit] in Hfiles.
    destruct ignore_checkpoint; [exact Hfiles|].
    unfold save_checkpoint, write_file. cbn [fs]. now rewrite Hfiles, Hdone.
Qed.

(** X12: a completed run splits the dispatched items between the two
    lists it returns: up to order they are the items with a record, in
    the order of the result list, followed by the items with a failure
    record, in the order of the failure list; every record and every
    failure record holds the sentence of its item. *)
Theorem run_partitions_dispatched sentences start_index (ignore_checkpoint : bool) schedule
    (w : world) (completed : gset Z) results fail_data w' :
  (if ignore_checkpoint then Ok (∅ : gset Z) else load_checkpoint w) = Ok completed ->
  process_sentences_concurrently sentences start_index ignore_checkpoint schedule w
    = Some (Ok (results, fail_data), w') ->
  exists succeeded failed,
    succeeded ++ failed ≡ₚ to_process sentences start_index completed /\
    Forall2 (fun r item => exists text, r = generation_record item.2 text)
            results succeeded /\
    fail_data = (fun item => failure_record item.2) <$> failed.
Proof.
  intros Hload Hrun.
  destruct (orchestrator_ledger _ _ _ _ _ _ _ _ _ Hload Hrun)
    as (succeeded & failed & H1 & H2 & H3 & _).
  eauto.
Qed.

Lemma load_after_save (S : gset Z) (w : world) :
  (forall X : gset Z, set_order X ≡ₚ elements X) ->
  load_checkpoint (save_checkpoint S w) = Ok S.
Proof.
  intros Horder.
  destruct (checkpoint_text_parses (set_order S)) as (_ & Hstrip & Hparse).
  cbv zeta in Hstrip, Hparse.
  unfold load_checkpoint, save_checkpoint, write_file. cbn [fs].
  rewrite lookup_insert_eq, Hstrip.
  assert (Hset : list_to_set (set_order S) = S).
  { rewrite (Horder S). apply list_to_set_elements_L. }
  destruct (set_order S) as [|z zs].
  - cbn. now rewrite <- Hset.
  - destruct Hparse as [Hne Hp]; [discriminate|].
    destruct (join (py ",") (map py_str_int (z :: zs))) as [|c r]; [congruence|].
    rewrite Hp. change (Ok (list_to_set (z :: zs)) = Ok S). now rewrite Hset.
Qed.

Lemma load_checkpoint_same_file (w1 w2 : world) :
  fs w1 !! CHECKPOINT_FILE = fs w2 !! CHECKPOINT_FILE ->
  load_checkpoint w1 = load_checkpoint w2.
Proof. intros H. unfold load_checkpoint. now rewrite H. Qed.

Lemma filter_none {A} (P : A -> Prop) `{forall x, Decision (P x)} (l : list A) :
  Forall (fun x => ~ P x) l -> filter P l = [].
Proof.
  induction 1 as [|x l Hx _ IH]; [reflexivity|].
  now rewrite filter_cons_False.
Qed.

Lemma to_process_indexes_distinct sentences start_index (completed : gset Z) :
  NoDup (fst <$> to_process sentences start_index completed).
Proof.
  unfold to_process.
  assert (Hall : NoDup (fst <$> imap (fun (i : nat) (s : pystr) =>
                                        (Z.of_nat i + start_index, s)%Z) sentences)).
  { rewrite fmap_imap.
    rewrite (imap_ext _ (fun i _ => (Z.of_nat i + start_index)%Z)) by reflexivity.
    rewrite imap_seq_0. apply NoDup_fmap_2; [|apply NoDup_seq].
    intros i j Hij. lia. }
  revert Hall. generalize (imap (fun (i : nat) (s : pystr) =>
                                   (Z.of_nat i + start_index, s)%Z) sentences).
  intros l. induction l as [|x l IH]; [constructor|].
  cbn [fmap list_fmap]. intros Hnd. apply NoDup_cons in Hnd as [Hx Hl].
  rewrite filter_cons. destruct (decide (x.1 ∉ completed)); [|auto].
  cbn [fmap list_fmap]. apply NoDup_cons. split; [|auto].
  intros Hin. apply Hx. apply list_elem_of_fmap in Hin as (y & -> & Hy).
  apply list_elem_of_fmap. exists y. split; [reflexivity|].
  now apply list_elem_of_filter in Hy as [_ Hy].
Qed.

Lemma to_process_union sentences start_index (completed extra : gset Z) :
  to_process sentences start_index (completed ∪ extra)
  = filter (fun item => item.1 ∉ extra) (to_process sentences start_index completed).
Proof.
  unfold to_process. rewrite list_filter_filter.
  apply list_filter_iff. intros item. rewrite not_elem_of_union.
  split; intros [H1 H2]; split; assumption.
Qed.

(** The indexes a completed run has added to the loaded set are new,
    pairwise distinct, and one per record. *)
Lemma succeeded_indexes_fresh sentences start_index (completed : gset Z)
    (succeeded failed : list (Z * pystr)) :
  succeeded ++ failed ≡ₚ to_process sentences start_index completed ->
  NoDup (fst <$> succeeded) /\
  completed ## list_to_set (fst <$> succeeded) /\
  Forall (fun item => item.1 ∉ (list_to_set (fst <$> succeeded) : gset Z)) failed.
Proof.
  intros Hitems.
  pose proof (to_process_indexes_distinct sentences start_index completed) as Hnd.
  rewrite <- Hitems, fmap_app in Hnd. apply NoDup_app in Hnd as (Hs & Hsf & _).
  split; [exact Hs|]. split.
  - intros idx Hc Hin. apply elem_of_list_to_set in Hin.
    apply list_elem_of_fmap in Hin as (item & -> & Hin).
    assert (Htodo : item ∈ to_process sentences start_index completed).
    { rewrite <- Hitems. apply elem_of_app. now left. }
    unfold to_process in Htodo. apply list_elem_of_filter in Htodo as [Hnot _].
    now apply Hnot.
  - apply Forall_forall. intros item Hin Hs'. apply elem_of_list_to_set in Hs'.
    apply (Hsf _ Hs'). now apply list_elem_of_fmap_2.
Qed.

(** X13: after a run without bypass, the checkpoint that loads is the
    one loaded before plus the index of each item that got a record: the
    set has grown by exactly the number of records; apart from the
    checkpoint and the log file, no file has changed. *)
Theorem checkpoint_after_run sentences start_index schedule (w : world)
    (completed : gset Z) results fail_data w' :
  (forall X : gset Z, set_order X ≡ₚ elements X) ->
  load_checkpoint w = Ok completed ->
  process_sentences_concurrently sentences start_index false schedule w
    = Some (Ok (results, fail_data), w') ->
  exists succeeded : list (Z * pystr),
    (forall item, item ∈ succeeded ->
                  item ∈ to_process sentences start_index completed) /\
    Forall2 (fun r item => exists text, r = generation_record item.2 text)
            results succeeded /\
    load_checkpoint w' = Ok (completed ∪ list_to_set (fst <$> succeeded)) /\
    size (completed ∪ list_to_set (fst <$> succeeded) : gset Z)
      = (size completed + length results)%nat /\
    (forall path, path <> CHECKPOINT_FILE -> path <> LOG_FILE ->
                  fs w' !! path = fs w !! path).
Proof.
  intros Horder Hload Hrun.
  destruct (orchestrator_ledger _ _ false _ _ _ _ _ _ Hload Hrun)
    as (succeeded & failed & Hitems & Hres & _ & Hfs).
  destruct (succeeded_indexes_fresh _ _ _ _ _ Hitems) as (Hnd & Hdisj & _).
  exists succeeded. split; [|split; [exact Hres|split; [|split]]].
  - intros item Hin. rewrite <- Hitems. apply elem_of_app. now left.
  - destruct (to_process sentences start_index completed) as [|item rest].
    + apply Permutation_nil_r in Hitems.
      apply app_eq_nil in Hitems as [-> _]. cbn.
      rewrite union_empty_r_L, <- Hload. now apply load_checkpoint_same_file; rewrite Hfs.
    + rewrite <- (load_after_save (completed ∪ list_to_set (fst <$> succeeded)) w Horder).
      apply load_checkpoint_same_file. rewrite Hfs.
      unfold save_checkpoint, write_file. cbn [fs]. now rewrite !lookup_insert_eq.
  - rewrite (size_union _ _ Hdisj), (size_list_to_set _ Hnd), length_fmap.
    now rewrite (Forall2_length _ _ _ Hres).
  - intros path Hpath _. rewrite Hfs.
    destruct (to_process sentences start_index completed); [reflexivity|].
    now apply lookup_insert_ne.
Qed.

(** X14: after a run without bypass, the items a second run over the
    same sentences would dispatch are, up to order, exactly the ones
    whose failure record the first run returned. *)
Theorem rerun_retries_failures sentences start_index schedule (w : world)
    (completed : gset Z) results fail_data w' :
  (forall X : gset Z, set_order X ≡ₚ elements X) ->
  load_checkpoint w = Ok completed ->
  process_sentences_concurrently sentences start_index false schedule w
    = Some (Ok (results, fail_data), w') ->
  exists completed' : gset Z,
    load_checkpoint w' = Ok completed' /\
    (fun item => failure_record item.2)
      <$> to_process sentences start_index completed'
    ≡ₚ fail_data.
Proof.
  intros Horder Hload Hrun.
  destruct (orchestrator_ledger _ _ false _ _ _ _ _ _ Hload Hrun)
    as (succeeded & failed & Hitems & _ & -> & Hfs).
  destruct (succeeded_indexes_fresh _ _ _ _ _ Hitems) as (_ & _ & Hfailed).
  exists (completed ∪ list_to_set (fst <$> succeeded)). split.
  - destruct (to_process sentences start_index completed) as [|item rest].
    + apply Permutation_nil_r in Hitems.
      apply app_eq_nil in Hitems as [-> _]. cbn.
      rewrite union_empty_r_L, <- Hload. now apply load_checkpoint_same_file; rewrite Hfs.
    + rewrite <- (load_after_save (completed ∪ list_to_set (fst <$> succeeded)) w Horder).
      apply load_checkpoint_same_file. rewrite Hfs.
      unfold save_checkpoint, write_file. cbn [fs]. now rewrite !lookup_insert_eq.
  - rewrite to_process_union, <- Hitems, filter_app.
    rewrite (filter_none _ succeeded), (filter_all _ failed); [reflexivity|exact Hfailed|].
    apply Forall_forall. intros item Hin Hnot. apply Hnot.
    apply elem_of_list_to_set. now apply list_elem_of_fmap_2.
Qed.

(** X15: a checkpoint whose text ends in a comma stops a run without
    bypass at once: the run raises [ValueError], makes no request, writes
    no file and no log record. *)
Theorem corrupt_checkpoint_stops_run sentences start_index schedule (w : world)
    (text body : pystr) :
  fs w !! CHECKPOINT_FILE = Some text ->
  strip text = body ++ [44] ->
  exists e,
    process_sentences_concurrently sentences start_index false schedule w
      = Some (Raise e, w) /\
    exn_class_of e = ValueError.
Proof.
  intros Hfile Hstrip.
  destruct (trailing_comma_raises _ _ _ Hfile Hstrip) as (e & Hload & Hclass).
  exists e. unfold process_sentences_concurrently. now rewrite Hload.
Qed.



(** ** Further properties of the result sink *)

Lemma table_paths_distinct :
  OUTPUT_FILE <> FAIL_FILE /\ CHECKPOINT_FILE <> OUTPUT_FILE /\
  CHECKPOINT_FILE <> FAIL_FILE /\ CACHE_FILE <> OUTPUT_FILE /\
  CACHE_FILE <> FAIL_FILE /\ CACHE_FILE <> CHECKPOINT_FILE.
Proof. repeat split; intros H; vm_compute in H; discriminate. Qed.

Ltac save_results_cases results fail_data w :=
  unfold save_results;
  destruct results as [|? ?];
  [|destruct (fs w !! OUTPUT_FILE) as [?|] eqn:?;
    [match goal with
     | |- context [read_csv ?t] => destruct (read_csv t) as [?|?] eqn:?
     end|]];
  cbn [fmap outcome_fmap fst snd fs calls emit write_file remove_file];
  try (destruct fail_data as [|? ?];
       [match goal with
        | |- context [match ?m !! FAIL_FILE with Some _ => _ | None => _ end] =>
            destruct (m !! FAIL_FILE) eqn:?
        end|]);
  cbn [fst snd fs calls emit write_file remove_file].

Lemma save_results_other_files results fail_data (w : world) (path : pystr) :
  path <> OUTPUT_FILE -> path <> FAIL_FILE ->
  fs (save_results results fail_data w).2 !! path = fs w !! path /\
  calls (save_results results fail_data w).2 = calls w.
Proof.
  intros Ho Hf.
  save_results_cases results fail_data w; split; try reflexivity;
    rewrite ?lookup_delete_ne, ?lookup_insert_ne by congruence; reflexivity.
Qed.



Lemma save_results_logs results fail_data (w : world) :
  (save_results results fail_data w).1 = Ok tt ->
  exists first second,
    log (save_results results fail_data w).2 = log w ++ [first; second].
Proof.
  save_results_cases results fail_data w; try discriminate; intros _;
    cbn [log emit write_file remove_file]; rewrite <- app_assoc; eauto.
Qed.

(** X17: [save_results] writes the output table, the failure table and
    the log file, and nothing else: every other file, the checkpoint and
    the cache among them, keeps its text, and no request is made.  A call
    that returns has logged two records. *)
Theorem save_results_frame results fail_data (w : world) (path : pystr) :
  path <> OUTPUT_FILE -> path <> FAIL_FILE -> path <> LOG_FILE ->
  fs (save_results results fail_data w).2 !! path = fs w !! path /\
  calls (save_results results fail_data w).2 = calls w /\
  ((save_results results fail_data w).1 = Ok tt ->
   exists first second,
     log (save_results results fail_data w).2 = log w ++ [first; second]).
Proof.
  intros Houtput Hfail _.
  destruct (save_results_other_files results fail_data w path Houtput Hfail)
    as [Hfiles Hcalls].
  split; [exact Hfiles|]. split; [exact Hcalls|]. apply save_results_logs.
Qed.



(** ** Entry point *)

Lemma orchestrator_other_files sentences start_index (ignore_checkpoint : bool)
    schedule (w : world) out w' :
  process_sentences_concurrently sentences start_index ignore_checkpoint schedule w
    = Some (out, w') ->
  (forall path, path <> CHECKPOINT_FILE -> fs w' !! path = fs w !! path) /\
  (ignore_checkpoint = true -> fs w' = fs w).
Proof.
  destruct (if ignore_checkpoint then Ok (∅ : gset Z) else load_checkpoint w)
    as [completed|e] eqn:Hload;
    unfold process_sentences_concurrently; rewrite Hload;
    [|intros [= <- <-]; split; reflexivity].
  destruct (to_process sentences start_index completed) as [|item rest] eqn:E.
  - intros [= <- <-]. split; reflexivity.
  - intros Hrun.
    destruct (pool_run _ _ _ _) as [p|] eqn:Ep; [|discriminate]. cbn in Hrun.
    rewrite <- E in Ep. apply pool_reachable_inv in Ep.
    destruct Ep as [Herr _ _ _ Hfiles].
    destruct (drained p); [|discriminate].
    rewrite Herr in Hrun. injection Hrun as <- <-.
    cbn [fs emit] in Hfiles. destruct ignore_checkpoint.
    + rewrite Hfiles. split; reflexivity.
    + split; [|discriminate]. intros path Hpath.
      unfold save_checkpoint. cbn [fs write_file].
      rewrite lookup_insert_ne by congruence. now rewrite Hfiles.
Qed.

Lemma save_results_fail_file results fail_data (w : world) :
  (save_results results fail_data w).1 = Ok tt ->
  fs (save_results results fail_data w).2 !! FAIL_FILE
  = match fail_data with
    | [] => None
    | _ :: _ => Some (to_csv fail_data)
    end.
Proof.
  save_results_cases results fail_data w; try discriminate; intros _;
    first [assumption | apply lookup_delete_eq | apply lookup_insert_eq].
Qed.

Lemma process_and_save_files sentences (ignore_checkpoint : bool) schedule
    (w : world) e w' :
  process_and_save sentences ignore_checkpoint schedule w = Some (e, w') ->
  (forall path, path <> CHECKPOINT_FILE -> path <> OUTPUT_FILE -> path <> FAIL_FILE ->
                fs w' !! path = fs w !! path) /\
  (ignore_checkpoint = true -> fs w' !! CHECKPOINT_FILE = fs w !! CHECKPOINT_FILE).
Proof.
  destruct table_paths_distinct as (_ & Hco & Hcf & _).
  unfold process_and_save.
  destruct (process_sentences_concurrently sentences 0 ignore_checkpoint schedule w)
    as [[[[results fail_data]|e1] w1]|] eqn:Hrun; [| |discriminate];
    destruct (orchestrator_other_files _ _ _ _ _ _ _ Hrun) as [Hother Hbypass].
  - pose proof (save_results_other_files results fail_data w1) as Hsave.
    destruct (save_results results fail_data w1) as [[[]|e2] w2];
      cbn [snd] in Hsave; intros [= <- <-]; (split;
        [intros path H1 H2 H3; rewrite (proj1 (Hsave path H2 H3)); now apply Hother
        |intros Hb; rewrite (proj1 (Hsave _ Hco Hcf)); now rewrite (Hbypass Hb)]).
  - intros [= <- <-]. split.
    + intros path H1 _ _. now apply Hother.
    + intros Hb. now rewrite (Hbypass Hb).
Qed.

(** What each way through [main] leaves of the files, mode by mode. *)
Lemma main_files typed schedule (w : world) e w' out :
  main typed schedule w = Some (e, w', out) ->
  (forall path, path <> CACHE_FILE -> path <> CHECKPOINT_FILE ->
                path <> OUTPUT_FILE -> path <> FAIL_FILE ->
                fs w' !! path = fs w !! path) /\
  (strip typed <> py "1" -> fs w' !! CACHE_FILE = fs w !! CACHE_FILE) /\
  (strip typed = py "2" -> fs w' !! CHECKPOINT_FILE = fs w !! CHECKPOINT_FILE).
Proof.
  destruct table_paths_distinct as (_ & _ & _ & Hao & Haf & Hac).
  unfold main. cbv zeta.
  destruct (bool_decide (strip typed = py "1")) eqn:E1.
  { apply bool_decide_eq_true in E1.
    destruct (pd_read_csv SOURCE_FILE w ≫= select_weight) as [df|e0];
      [|intros [= <- <- <-]; repeat split; intros; first [reflexivity | assumption]].
    destruct (sentence_column df) as [sentences|e0].
    - destruct (process_and_save _ _ _ _) as [[e1 w2]|] eqn:Hps; [|discriminate].
      intros [= <- <- <-].
      destruct (process_and_save_files _ _ _ _ _ _ Hps) as [Hother _].
      split; [|split; [congruence|rewrite E1; intros H; vm_compute in H; discriminate]].
      intros path H1 H2 H3 H4. rewrite (Hother path H2 H3 H4).
      cbn [fs write_file]. now apply lookup_insert_ne.
    - intros [= <- <- <-].
      split; [|split; [congruence|rewrite E1; intros H; vm_compute in H; discriminate]].
      intros path H1 _ _ _. cbn [fs write_file]. now apply lookup_insert_ne. }
  destruct (bool_decide (strip typed = py "2")) eqn:E2.
  { destruct (fs w !! FAIL_FILE) as [text|];
      [|intros [= <- <- <-]; repeat split; intros; first [reflexivity | assumption]].
    destruct (read_csv text ≫= sentence_column) as [sentences|e0];
      [|intros [= <- <- <-]; repeat split; intros; first [reflexivity | assumption]].
    destruct (process_and_save _ _ _ _) as [[e1 w2]|] eqn:Hps; [|discriminate].
    intros [= <- <- <-].
    destruct (process_and_save_files _ _ _ _ _ _ Hps) as [Hother Hbypass].
    split; [|split].
    - intros path _ H2 H3 H4. now apply Hother.
    - intros _. now apply Hother.
    - intros _. now apply Hbypass. }
  apply bool_decide_eq_false in E2.
  destruct (bool_decide (strip typed = py "3")) eqn:E3.
  { destruct (fs w !! CACHE_FILE) as [text|] eqn:Hcache;
      [|intros [= <- <- <-]; repeat split; intros; first [reflexivity | assumption]].
    destruct (read_csv text) as [df|e0];
      [|intros [= <- <- <-]; repeat split; intros; first [reflexivity | assumption]].
    destruct (load_checkpoint w) as [completed|e0];
      [|intros [= <- <- <-]; repeat split; intros; first [reflexivity | assumption]].
    destruct (bool_decide (length df <= size completed)%nat);
      [intros [= <- <- <-]; repeat split; intros; first [reflexivity | assumption]|].
    destruct (sentence_column df) as [sentences|e0];
      [|intros [= <- <- <-]; repeat split; intros; first [reflexivity | assumption]].
    destruct (process_and_save _ _ _ _) as [[e1 w2]|] eqn:Hps; [|discriminate].
    intros [= <- <- <-].
    destruct (process_and_save_files _ _ _ _ _ _ Hps) as [Hother _].
    split; [|split; [|congruence]].
    - intros path _ H2 H3 H4. now apply Hother.
    - intros _. rewrite <- Hcache. now apply Hother. }
  destruct (bool_decide (strip typed = py "0"));
    intros [= <- <- <-]; repeat split; intros; first [reflexivity | assumption].
Qed.

(** X20: whatever is typed and however the run ends, [main] leaves every
    file other than the cache, the checkpoint, the output table, the
    failure table and the log file as it found it; the source table is
    among them. *)
Theorem main_leaves_other_files typed schedule (w : world) e w' out (path : pystr) :
  main typed schedule w = Some (e, w', out) ->
  path <> CACHE_FILE -> path <> CHECKPOINT_FILE ->
  path <> OUTPUT_FILE -> path <> FAIL_FILE -> path <> LOG_FILE ->
  fs w' !! path = fs w !! path.
Proof.
  intros Hmain Hcache Hcheckpoint Houtput Hfail _.
  now apply (proj1 (main_files _ _ _ _ _ _ Hmain)).
Qed.

(** X21: the retry mode, however it ends, changes neither the checkpoint
    nor the cache: what was retried is not recorded as completed. *)
Theorem retry_keeps_checkpoint_and_cache typed schedule (w : world) e w' out :
  strip typed = py "2" ->
  main typed schedule w = Some (e, w', out) ->
  fs w' !! CHECKPOINT_FILE = fs w !! CHECKPOINT_FILE /\
  fs w' !! CACHE_FILE = fs w !! CACHE_FILE.
Proof.
  intros Hchoice Hmain.
  destruct (main_files _ _ _ _ _ _ Hmain) as (_ & Hcache & Hcheckpoint).
  split; [now apply Hcheckpoint|]. apply Hcache. rewrite Hchoice.
  intros H; vm_compute in H; discriminate.
Qed.

(** X22: the cases in which [main] has nothing to do.  It returns
    without a request, a log record or a change to any file when retry is
    chosen without a failure table, when resume is chosen without a
    cache, when resume is chosen and the checkpoint holds at least as
    many indexes as the cache has rows, and when the choice is none of
    the four. *)
Theorem main_without_work typed schedule (w : world) :
  (strip typed = py "2" /\ fs w !! FAIL_FILE = None) \/
  (strip typed = py "3" /\ fs w !! CACHE_FILE = None) \/
  (strip typed = py "3" /\
   exists text df completed,
     fs w !! CACHE_FILE = Some text /\ read_csv text = Ok df /\
     load_checkpoint w = Ok completed /\ (length df <= size completed)%nat) \/
  (strip typed <> py "0" /\ strip typed <> py "1" /\
   strip typed <> py "2" /\ strip typed <> py "3") ->
  exists message, main typed schedule w = Some (Returned, w, MENU ++ [message]).
Proof.
  unfold main. cbv zeta.
  intros [[Hc Hfile]|[[Hc Hfile]|[(Hc & text & df & completed & Hfile & Hread & Hload & Hfull)
                                 |(H0 & H1 & H2 & H3)]]].
  - rewrite Hc, Hfile. eexists. reflexivity.
  - rewrite Hc, Hfile. eexists. reflexivity.
  - rewrite Hc, Hfile, Hread, Hload.
    rewrite (bool_decide_eq_true_2 _ Hfull). eexists. reflexivity.
  - rewrite !bool_decide_eq_false_2 by assumption. eexists. reflexivity.
Qed.

(** X23: in the first mode, once the source table has been read and the
    rows of weight 3 selected, the cache holds that selection when [main]
    ends, whether the run that follows succeeds, fails or raises. *)
Theorem fresh_run_caches_selection typed schedule (w : world) df0 df e w' out :
  strip typed = py "1" ->
  pd_read_csv SOURCE_FILE w = Ok df0 ->
  select_weight df0 = Ok df ->
  main typed schedule w = Some (e, w', out) ->
  fs w' !! CACHE_FILE = Some (to_csv df).
Proof.
  intros Hc Hread Hselect. unfold main. cbv zeta.
  destruct table_paths_distinct as (_ & _ & _ & Hao & Haf & Hac).
  rewrite (bool_decide_eq_true_2 _ Hc), Hread. cbn [mbind outcome_bind].
  rewrite Hselect.
  destruct (sentence_column df) as [sentences|e0].
  - destruct (process_and_save _ _ _ _) as [[e1 w2]|] eqn:Hps; [|discriminate].
    intros [= <- <- <-].
    destruct (process_and_save_files _ _ _ _ _ _ Hps) as [Hother _].
    rewrite (Hother _ Hac Hao Haf). apply lookup_insert_eq.
  - intros [= <- <- <-]. apply lookup_insert_eq.
Qed.

(** X24: when the retry mode returns, the failure table has been
    replaced by the failure list of the batch run over the sentences read
    from it.  That run splits the retried positions between its records
    and its failure records; the table afterwards holds exactly those
    failure records, one for each position the run returned no record
    for, each with the sentence of its position, and it is absent when
    the run returned a record for every position. *)
Theorem retry_rewrites_failure_table typed schedule (w : world) text df sentences
    w' out :
  strip typed = py "2" ->
  fs w !! FAIL_FILE = Some text ->
  read_csv text = Ok df ->
  sentence_column df = Ok sentences ->
  main typed schedule w = Some (Returned, w', out) ->
  exists results fail_data w1 (succeeded failed : list (Z * pystr)),
    process_sentences_concurrently sentences 0 true schedule w
      = Some (Ok (results, fail_data), w1) /\
    succeeded ++ failed ≡ₚ imap (fun i s => (Z.of_nat i + 0, s)%Z) sentences /\
    Forall2 (fun r item => exists text, r = generation_record item.2 text)
            results succeeded /\
    fail_data = (fun item => failure_record item.2) <$> failed /\
    fs w' !! FAIL_FILE
    = match fail_data with
      | [] => None
      | _ :: _ => Some (to_csv fail_data)
      end.
Proof.
  intros Hc Hfile Hread Hcolumn. unfold main. cbv zeta.
  assert (H1 : strip typed <> py "1").
  { rewrite Hc. intros H; vm_compute in H; discriminate. }
  rewrite (bool_decide_eq_false_2 _ H1), (bool_decide_eq_true_2 _ Hc), Hfile, Hread.
  cbn [mbind outcome_bind]. rewrite Hcolumn.
  unfold process_and_save.
  destruct (process_sentences_concurrently sentences 0 true schedule w)
    as [[[[results fail_data]|e1] w1]|] eqn:Hrun; [|discriminate|discriminate].
  destruct (orchestrator_ledger _ _ true _ _ ∅ _ _ _ eq_refl Hrun)
    as (succeeded & failed & Hitems & Hres & Hfailed & _).
  pose proof (save_results_fail_file results fail_data w1) as Hfail.
  destruct (save_results _ _ w1) as [[[]|e2] w2]; [|discriminate].
  intros [= <- <-]. cbn [fst snd] in Hfail. specialize (Hfail eq_refl).
  exists results, fail_data, w1, succeeded, failed.
  split; [reflexivity|]. split; [now rewrite Hitems, to_process_bypass|].
  split; [exact Hres|]. split; [exact Hfailed|exact Hfail].
Qed.

(** ** Requests made by a run *)

Lemma requests_of_app traces1 traces2 :
  requests_of (traces1 ++ traces2) = (requests_of traces1 + requests_of traces2)%nat.
Proof.
  induction traces1 as [|tr traces1 IH]; [reflexivity|].
  cbn [app requests_of]. rewrite IH. lia.
Qed.

Lemma requests_of_delete traces (slot : nat) tr :
  traces !! slot = Some tr ->
  requests_of traces = (length tr.1 + requests_of (delete slot traces))%nat.
Proof.
  revert slot. induction traces as [|tr0 traces IH]; intros [|slot] H;
    try discriminate.
  - now injection H as ->.
  - simpl in H. simpl. rewrite (IH _ H). lia.
Qed.

Lemma requests_of_insert traces (slot : nat) tr tr' :
  traces !! slot = Some tr ->
  (requests_of (<[slot := tr']> traces) + length tr.1
   = requests_of traces + length tr'.1)%nat.
Proof.
  revert slot. induction traces as [|tr0 traces IH]; intros [|slot] H;
    try discriminate.
  - injection H as ->. simpl. lia.
  - simpl in H. simpl. specialize (IH _ H). lia.
Qed.

Lemma pool_requests_init todo completed (w : world) :
  pool_requests (length (calls w)) (pool_init todo completed w) [] 0.
Proof. split; cbn; [constructor | lia | lia]. Qed.

Lemma pool_requests_step sentences start_index todo files before a p p' traces late :
  dispatched sentences start_index todo ->
  pool_inv todo files p ->
  pool_requests before p traces late ->
  pool_step sentences start_index a p = Some p' ->
  exists traces' late', pool_requests before p' traces' late'.
Proof.
  intros Htodo [Herr _ Hs _ _] [Htr Htotal Hlate] Hstep.
  destruct a as [|slot reply|slot]; cbn [pool_step] in Hstep.
  - destruct (queue p) as [|[idx sent] rest]; [discriminate|].
    destruct (decide (busy_workers p < MAX_WORKERS)%nat); [|discriminate].
    injection Hstep as <-. exists (traces ++ [([], [])]), late.
    split; cbn [queue started coll pworld]; [| |exact Hlate].
    + apply Forall2_app; [exact Htr|]. constructor; [|constructor].
      exists sent. apply process_sentence_trace.
    + rewrite requests_of_app. cbn. lia.
  - destruct (started p !! slot) as [[idx t]|] eqn:El; [|discriminate].
    destruct (Forall2_lookup_l _ _ _ _ _ Htr El) as ([cs ls] & Et & s & Hends).
    cbn [fst snd] in Hends.
    destruct t as [a|e|m k|r k]; try discriminate; injection Hstep as <-.
    + exists (<[slot := (cs ++ [m], ls)]> traces), late.
      pose proof (requests_of_insert _ _ _ (cs ++ [m], ls) Et) as Hsum.
      cbn [fst] in Hsum. rewrite length_app in Hsum. cbn [length] in Hsum.
      split; cbn [queue started coll pworld]; [| |exact Hlate].
      * apply Forall2_insert; [exact Htr|]. exists s. apply Hends.
      * cbn [calls request]. rewrite length_app. cbn [length]. lia.
    + exists (<[slot := (cs, ls ++ [r])]> traces), late.
      pose proof (requests_of_insert _ _ _ (cs, ls ++ [r]) Et) as Hsum.
      cbn [fst] in Hsum.
      split; cbn [queue started coll pworld]; [| |exact Hlate].
      * apply Forall2_insert; [exact Htr|]. exists s. apply Hends.
      * cbn [calls emit]. lia.
  - destruct (started p !! slot) as [[idx t]|] eqn:El; [|discriminate].
    destruct (Forall2_lookup_l _ _ _ _ _ Htr El) as ([cs ls] & Et & s & Hends).
    cbn [fst snd] in Hends.
    pose proof (Forall_lookup_1 _ _ _ _ Hs El) as (s' & Hin & _).
    cbn [fst] in Hin. destruct (Htodo _ _ Hin) as (i & Hidx & Hi).
    pose proof (requests_of_delete _ _ _ Et) as Hsum. cbn [fst] in Hsum.
    destruct t as [[index result]|e|m k|r k]; try discriminate.
    + injection Hstep as <-. cbn [all_ends] in Hends.
      destruct Hends as (result' & [= <- <-] & Hcase).
      unfold collect. rewrite Herr.
      destruct Hcase as [(Htruthy & _ & draft & ->)|(Htruthy & _ & Hcs)];
        rewrite Htruthy.
      * exists (delete slot traces), late.
        split; cbn [queue started coll pworld results fail_data];
          [now apply Forall2_delete| |exact Hlate].
        rewrite length_app. cbn [length] in *. lia.
      * rewrite (list_getitem_dispatched _ _ _ _ _ Hidx Hi).
        exists (delete slot traces), (late + length cs)%nat.
        assert (Hlen : (1 <= length cs <= 2)%nat).
        { destruct Hcs as [->|(draft & ->)]; cbn; lia. }
        split; cbn [queue started coll pworld results fail_data];
          [now apply Forall2_delete| |rewrite length_app; cbn [length]; lia].
        lia.
    + cbn [all_ends] in Hends. destruct Hends as (result' & Hraise & _).
      discriminate.
Qed.

Lemma pool_requests_run sentences start_index todo files before schedule p p'
    traces late :
  dispatched sentences start_index todo ->
  pool_inv todo files p ->
  pool_requests before p traces late ->
  pool_run sentences start_index schedule p = Some p' ->
  exists traces' late', pool_requests before p' traces' late'.
Proof.
  intros Htodo. revert p traces late.
  induction schedule as [|a schedule IH]; intros p traces late Hinv Hreq Hrun.
  - injection Hrun as <-. eauto.
  - cbn [pool_run] in Hrun.
    destruct (pool_step sentences start_index a p) as [p1|] eqn:E; [|discriminate].
    cbn in Hrun.
    destruct (pool_requests_step _ _ _ _ _ _ _ _ _ _ Htodo Hinv Hreq E)
      as (traces1 & late1 & Hreq1).
    eapply IH; [|exact Hreq1|exact Hrun]. eapply pool_step_inv; eauto.
Qed.

(** X25: a completed run has made exactly two requests for each record
    it returns and one or two for each failure record, and no other
    request, whatever the schedule and the replies. *)
Theorem run_request_count sentences start_index (ignore_checkpoint : bool) schedule
    (w : world) results fail_data w' :
  process_sentences_concurrently sentences start_index ignore_checkpoint schedule w
    = Some (Ok (results, fail_data), w') ->
  exists late : nat,
    length (calls w') = (length (calls w) + 2 * length results + late)%nat /\
    (length fail_data <= late)%nat /\ (late <= 2 * length fail_data)%nat.
Proof.
  destruct (if ignore_checkpoint then Ok (∅ : gset Z) else load_checkpoint w)
    as [completed|e] eqn:Hload;
    unfold process_sentences_concurrently; rewrite Hload; [|discriminate].
  destruct (to_process sentences start_index completed) as [|item rest] eqn:E.
  - intros [= <- <- <-]. exists 0%nat. cbn. lia.
  - intros Hrun.
    destruct (pool_run _ _ _ _) as [p|] eqn:Ep; [|discriminate]. cbn in Hrun.
    rewrite <- E in Ep.
    destruct (pool_requests_run _ _ _ _ _ _ _ _ _ _
                (to_process_dispatched _ _ _) (pool_init_inv _ _ _)
                (pool_requests_init _ _ _) Ep)
      as (traces & late & [Htr Htotal Hlate]).
    pose proof (inv_error _ _ _ (pool_reachable_inv _ _ _ _ _ _ Ep)) as Herr.
    destruct (drained p) eqn:Ed; [|discriminate].
    rewrite Herr in Hrun. injection Hrun as <- <- <-.
    unfold drained in Ed.
    destruct (queue p); [|discriminate].
    destruct (started p); [|discriminate].
    apply Forall2_nil_inv_l in Htr. subst traces.
    exists late. cbn [requests_of calls emit] in Htotal.
    split; [|exact Hlate].
    destruct ignore_checkpoint; cbn [calls save_checkpoint write_file]; lia.
Qed.

End Program.

(** ** Where the specification says more than the code does *)

(** C8, as stated, fails on a reply that nests arrays past the recursion
    limit: the decoder raises [RecursionError], which is not a
    [JSONDecodeError], and [extract_json] lets it through. *)
Lemma extract_json_recursion_error :
  ~ parser_law json_loads_limited deep_reply (fun _ _ => Ok []) empty_world.
Proof.
  intros (v & w' & H).
  rewrite (run_extract_json_raise json_loads_limited deep_reply deep_reply
             recursion_error) in H; [discriminate| | |reflexivity];
    vm_compute; reflexivity.
Qed.


(** ** The theorems at concrete inputs *)

Lemma clean_value_escaping_witness :
  str_contains (py "\n") [102; NEWLINE; 103] = false /\
  exists stored,
    clean_value (VStr [102; NEWLINE; 103]) = VStr stored /\
    (NEWLINE ∉ stored) /\ unescape stored = [102; NEWLINE; 103].
Proof.
  split; [reflexivity|].
  destruct (clean_value_escaping [102; NEWLINE; 103]) as (stored & H1 & H2 & H3).
  exists stored. split; [exact H1|]. split; [exact H2|]. apply H3. reflexivity.
Defined.

Lemma checkpoint_roundtrip_witness :
  (forall X : gset Z, elements X ≡ₚ elements X) /\
  load_checkpoint (save_checkpoint elements {[3; 1; 20]}%Z earlier_world)
  = Ok {[3; 1; 20]}%Z.
Proof.
  split; [reflexivity|].
  destruct (checkpoint_roundtrip elements {[3; 1; 20]}%Z earlier_world)
    as (text & _ & _ & _ & H); [reflexivity | exact H].
Defined.

Lemma load_checkpoint_blank_witness :
  fs blank_checkpoint_world !! CHECKPOINT_FILE = Some [32; NEWLINE; 9] /\
  Forall (fun c => isspace c = true) [32; NEWLINE; 9] /\
  load_checkpoint blank_checkpoint_world = Ok ∅.
Proof.
  assert (Hfile : fs blank_checkpoint_world !! CHECKPOINT_FILE = Some [32; NEWLINE; 9])
    by (vm_compute; reflexivity).
  assert (Hblank : Forall (fun c => isspace c = true) [32; NEWLINE; 9])
    by (repeat constructor).
  split; [exact Hfile|]. split; [exact Hblank|].
  exact (proj1 (load_checkpoint_blank _ _ Hfile Hblank)).
Defined.

Lemma extract_json_outcome_witness :
  outermost_braces broken_reply = Some (py "{oops}") /\
  (exists e, json_loads_ref (py "{oops}") = Raise e /\ is_JSONDecodeError e = true) /\
  exists w',
    run (extract_json json_loads_ref broken_reply) sample_api empty_world
    = (Ok VNone, w') /\
    length (log w') = 1%nat /\ calls w' = [].
Proof.
  assert (Hgroup : outermost_braces broken_reply = Some (py "{oops}"))
    by (vm_compute; reflexivity).
  destruct (extract_json_outcome json_loads_ref broken_reply sample_api empty_world)
    as [_ H].
  rewrite Hgroup in H.
  destruct (json_loads_ref (py "{oops}")) as [v|e] eqn:Hloads;
    [vm_compute in Hloads; discriminate|].
  assert (Hclass : is_JSONDecodeError e = true)
    by (vm_compute in Hloads; injection Hloads as <-; reflexivity).
  rewrite Hclass in H. destruct H as (w' & Hrun & Hlog & Hcalls).
  split; [exact Hgroup|]. split; [eauto|].
  exists w'. split; [exact Hrun|]. split; [now rewrite Hlog | exact Hcalls].
Defined.

Lemma draft_failure_stops_witness :
  failing_api (length (calls empty_world)) [user (draft_prompt sample_sentence)]
    = Ok [Some not_json] /\
  exists w',
    run (process_sentence json_loads_ref py_repr_ref 7 sample_sentence)
        failing_api empty_world = (Ok (7%Z, VNone), w') /\
    calls w' = calls empty_world ++ [[user (draft_prompt sample_sentence)]].
Proof.
  split; [reflexivity|].
  destruct (run (extract_json json_loads_ref (strip not_json)) failing_api
              (request [user (draft_prompt sample_sentence)] empty_world))
    as [parsed w1] eqn:Hparse.
  assert (Hnone : parsed = Ok VNone).
  { apply (f_equal fst) in Hparse. vm_compute in Hparse. now symmetry. }
  subst parsed.
  apply (draft_failure_stops json_loads_ref py_repr_ref 7 sample_sentence
           failing_api empty_world not_json [] VNone w1);
    [reflexivity | exact Hparse | left; reflexivity].
Defined.

Lemma process_sentence_outcome_witness :
  exists result w',
    run (process_sentence json_loads_ref py_repr_ref 7 sample_sentence)
        sample_api empty_world = (Ok (7%Z, result), w') /\
    task_outcome sample_sentence result.
Proof.
  exact (proj1 (process_sentence_outcome json_loads_ref py_repr_ref 7
                  sample_sentence sample_api empty_world)).
Defined.

Lemma checkpointed_run_is_idle_witness :
  load_checkpoint earlier_world = Ok (list_to_set [0; 1]%Z) /\
  exists w',
    process_sentences_concurrently json_loads_ref py_repr_ref elements
      two_sentences 0 false sample_schedule earlier_world
    = Some (Ok ([], []), w') /\
    calls w' = calls earlier_world /\ fs w' = fs earlier_world.
Proof.
  assert (Hload : load_checkpoint earlier_world = Ok (list_to_set [0; 1]%Z))
    by (vm_compute; reflexivity).
  split; [exact Hload|].
  apply (checkpointed_run_is_idle json_loads_ref py_repr_ref elements
           two_sentences 0 sample_schedule earlier_world _ Hload).
  intros [|[|i]] Hi; cbn in Hi; [set_solver | set_solver | lia].
Defined.

Lemma bypass_keeps_checkpoint_witness :
  exists out w',
    process_sentences_concurrently json_loads_ref py_repr_ref elements
      two_sentences 0 true sample_schedule earlier_world = Some (out, w') /\
    fs w' !! CHECKPOINT_FILE = Some (py "0,1") /\
    exists results fail_data,
      out = Ok (results, fail_data) /\ (length results + length fail_data = 2)%nat.
Proof.
  destruct (process_sentences_concurrently json_loads_ref py_repr_ref elements
              two_sentences 0 true sample_schedule earlier_world)
    as [[out w']|] eqn:Hrun; [|vm_compute in Hrun; discriminate].
  exists out, w'. split; [reflexivity|].
  destruct (bypass_keeps_checkpoint json_loads_ref py_repr_ref elements
              two_sentences 0 sample_schedule earlier_world out w' Hrun)
    as (Hfile & _ & _ & Hcount).
  split; [|exact Hcount]. rewrite Hfile. vm_compute. reflexivity.
Defined.

Lemma failure_keeps_sentence_witness :
  exists p p',
    pool_run json_loads_ref py_repr_ref two_sentences 0 schedule_until_last
      (pool_init (to_process two_sentences 0 ∅) ∅ empty_world) = Some p /\
    started p !! O = Some (0%Z, Ret (0%Z, VNone)) /\
    pool_step json_loads_ref py_repr_ref two_sentences 0 (Collect 0) p = Some p' /\
    fail_data (coll p') = fail_data (coll p) ++ [failure_record (py "A")].
Proof.
  destruct (pool_run json_loads_ref py_repr_ref two_sentences 0 schedule_until_last
              (pool_init (to_process two_sentences 0 ∅) ∅ empty_world))
    as [p|] eqn:Hrun; [|vm_compute in Hrun; discriminate].
  assert (Hslot : started p !! O = Some (0%Z, Ret (0%Z, VNone))).
  { apply (f_equal (fun o => o ≫= fun q => started q !! O)) in Hrun.
    vm_compute in Hrun. now symmetry. }
  destruct (pool_step json_loads_ref py_repr_ref two_sentences 0 (Collect 0) p)
    as [p'|] eqn:Hstep;
    [|cbn [pool_step] in Hstep; rewrite Hslot in Hstep; discriminate].
  exists p, p'. split; [reflexivity|]. split; [exact Hslot|]. split; [exact Hstep|].
  destruct (failure_keeps_sentence json_loads_ref py_repr_ref two_sentences 0 ∅
              schedule_until_last empty_world p O 0%Z 0%Z VNone p'
              Hrun Hslot eq_refl Hstep)
    as (_ & s & _ & Hget & Hfail & _).
  rewrite Hfail. vm_compute in Hget. now injection Hget as <-.
Defined.


(** ** Scenarios of the specification *)

(** Draft and critique both answer with the field: the record holds the
    sentence, the stage-2 text with its newline escaped, and the model
    name; two requests were made. *)
Example scenario_success :
  let r := run (process_sentence json_loads_ref py_repr_ref 0 sample_sentence)
               sample_api empty_world in
  r.1 = Ok (0%Z, VDict [ (COL_SENTENCE, VStr sample_sentence);
                         (COL_MONOLOGUE, VStr (py "final text\nwith a break"));
                         (COL_MODEL, VStr MODEL_NAME) ]) /\
  length (calls r.2) = 2%nat.
Proof. vm_compute. split; reflexivity. Qed.

(** Text around the object is ignored by the parser. *)
Example scenario_chatty_reply :
  (run (extract_json json_loads_ref chatty_reply) sample_api empty_world).1
  = Ok (VDict [(FIELD, VStr (py "draft text"))]).
Proof. vm_compute. reflexivity. Qed.

(** The draft reply is not JSON: failure after a single request. *)
Example scenario_not_json :
  let r := run (process_sentence json_loads_ref py_repr_ref 0 sample_sentence)
               failing_api empty_world in
  r.1 = Ok (0%Z, VNone) /\ length (calls r.2) = 1%nat.
Proof. vm_compute. split; reflexivity. Qed.

(** The critique reply omits the field: failure after both requests. *)
Example scenario_critique_omits_field :
  let r := run (process_sentence json_loads_ref py_repr_ref 0 sample_sentence)
               omitting_api empty_world in
  r.1 = Ok (0%Z, VNone) /\ length (calls r.2) = 2%nat.
Proof. vm_compute. split; reflexivity. Qed.

(** A run over two sentences without bypass: one record, one failure
    record for the first sentence, and index 1 added to the checkpoint. *)
Example scenario_batch :
  exists w',
    process_sentences_concurrently json_loads_ref py_repr_ref elements
      two_sentences 0 false sample_schedule empty_world
    = Some (Ok ([generation_record (py "B")
                   (VStr (py "final text" ++ [NEWLINE] ++ py "with a break"))],
                [failure_record (py "A")]), w') /\
    fs w' !! CHECKPOINT_FILE = Some (py "1").
Proof.
  assert (Hout : fst <$> process_sentences_concurrently json_loads_ref py_repr_ref
                           elements two_sentences 0 false sample_schedule empty_world
                 = Some (Ok ([generation_record (py "B")
                                (VStr (py "final text" ++ [NEWLINE] ++ py "with a break"))],
                             [failure_record (py "A")])))
    by (vm_compute; reflexivity).
  assert (Hfile : process_sentences_concurrently json_loads_ref py_repr_ref
                    elements two_sentences 0 false sample_schedule empty_world
                  ≫= (fun r => fs r.2 !! CHECKPOINT_FILE)
                  = Some (py "1"))
    by (vm_compute; reflexivity).
  destruct (process_sentences_concurrently json_loads_ref py_repr_ref elements
              two_sentences 0 false sample_schedule empty_world)
    as [[out w']|]; [|discriminate].
  cbn in Hout, Hfile. injection Hout as ->. now exists w'.
Qed.

(** ** Further properties at concrete inputs *)

Lemma two_stage_success_witness :
  sample_api (length (calls empty_world)) (draft_request sample_sentence)
    = Ok [Some draft_reply] /\
  run (process_sentence json_loads_ref py_repr_ref 3 sample_sentence)
      sample_api empty_world
  = (Ok (3%Z, generation_record sample_sentence
                (VStr (py "final text" ++ [NEWLINE] ++ py "with a break"))),
     World ∅ []
       [draft_request sample_sentence;
        critique_request sample_sentence (py "draft text")]).
Proof.
  split; [reflexivity|].
  apply (two_stage_success json_loads_ref py_repr_ref 3 sample_sentence
           sample_api empty_world
           draft_reply [] draft_reply [(FIELD, VStr (py "draft text"))]
           (VStr (py "draft text"))
           final_reply [] final_reply
           [(FIELD, VStr (py "final text" ++ [NEWLINE] ++ py "with a break"))]);
    vm_compute; reflexivity.
Defined.

Lemma critique_failure_fails_witness :
  omitting_api (S (length (calls empty_world)))
    (critique_request sample_sentence (py "draft text"))
    = Ok [Some (reply_object (py "monologue") (py "final text"))] /\
  exists w',
    run (process_sentence json_loads_ref py_repr_ref 3 sample_sentence)
        omitting_api empty_world = (Ok (3%Z, VNone), w') /\
    calls w' = [draft_request sample_sentence;
                critique_request sample_sentence (py "draft text")].
Proof.
  split; [reflexivity|].
  destruct (run (extract_json json_loads_ref
                   (strip (reply_object (py "monologue") (py "final text"))))
              omitting_api
              (request (critique_request sample_sentence (py "draft text"))
                 (request (draft_request sample_sentence) empty_world)))
    as [parsed w3] eqn:Hparse.
  assert (Hshape : parsed = Ok (VDict [(py "monologue", VStr (py "final text"))])).
  { apply (f_equal fst) in Hparse. vm_compute in Hparse. now symmetry. }
  subst parsed.
  apply (critique_failure_fails json_loads_ref py_repr_ref 3 sample_sentence
           omitting_api empty_world
           draft_reply [] draft_reply [(FIELD, VStr (py "draft text"))]
           (VStr (py "draft text"))
           (reply_object (py "monologue") (py "final text")) []
           (VDict [(py "monologue", VStr (py "final text"))]) w3);
    try (vm_compute; reflexivity).
  - exact Hparse.
  - right. eexists. split; [reflexivity|]. vm_compute. reflexivity.
Defined.

Lemma transport_failure_logged_witness :
  exists e,
    run (send_messages (draft_request sample_sentence)) silent_api empty_world
      = (Raise e, request (draft_request sample_sentence) empty_world) /\
    exn_class_of e = AttributeError /\
    exists w',
      run (process_sentence json_loads_ref py_repr_ref 3 sample_sentence)
          silent_api empty_world = (Ok (3%Z, VNone), w') /\
      log w' = [error_record sample_sentence e] /\
      calls w' = [draft_request sample_sentence].
Proof.
  eexists. split; [reflexivity|]. split; [reflexivity|].
  destruct (transport_failure_logged json_loads_ref py_repr_ref 3 sample_sentence
              silent_api empty_world _ _ eq_refl)
    as (w' & Hrun & Hlog & Hcalls & _).
  exists w'. split; [exact Hrun|]. split; [exact Hlog|exact Hcalls].
Defined.

Lemma extract_json_ignores_chatter_witness :
  (LBRACE ∉ py "Here you go: ") /\ (RBRACE ∉ py " Enjoy!") /\
  (run (extract_json json_loads_ref
          (py "Here you go: " ++ (LBRACE :: py "oops" ++ [RBRACE]) ++ py " Enjoy!"))
       sample_api empty_world).1
  = (run (extract_json json_loads_ref (LBRACE :: py "oops" ++ [RBRACE]))
       sample_api empty_world).1.
Proof.
  assert (Hpre : LBRACE ∉ py "Here you go: ")
    by (apply (bool_decide_unpack _); vm_compute; reflexivity).
  assert (Hsuf : RBRACE ∉ py " Enjoy!")
    by (apply (bool_decide_unpack _); vm_compute; reflexivity).
  split; [exact Hpre|]. split; [exact Hsuf|].
  apply (extract_json_ignores_chatter json_loads_ref _ _ _ _ _ Hpre Hsuf).
Defined.

Lemma load_checkpoint_ignores_padding_witness :
  fs earlier_world !! CHECKPOINT_FILE = Some (py "0,1") /\
  fs padded_world !! CHECKPOINT_FILE = Some ([32] ++ py "0,1" ++ [NEWLINE]) /\
  load_checkpoint padded_world = load_checkpoint earlier_world.
Proof.
  assert (H1 : fs earlier_world !! CHECKPOINT_FILE = Some (py "0,1"))
    by (vm_compute; reflexivity).
  assert (H2 : fs padded_world !! CHECKPOINT_FILE
               = Some ([32] ++ py "0,1" ++ [NEWLINE]))
    by (vm_compute; reflexivity).
  split; [exact H1|]. split; [exact H2|].
  apply (load_checkpoint_ignores_padding _ _ _ _ _ H1 H2); repeat constructor.
Defined.

Lemma load_checkpoint_trailing_comma_witness :
  fs trailing_comma_world !! CHECKPOINT_FILE = Some (py "0,1,") /\
  strip (py "0,1,") = py "0,1" ++ [44] /\
  exists e, load_checkpoint trailing_comma_world = Raise e /\
            exn_class_of e = ValueError.
Proof.
  assert (H1 : fs trailing_comma_world !! CHECKPOINT_FILE = Some (py "0,1,"))
    by (vm_compute; reflexivity).
  assert (H2 : strip (py "0,1,") = py "0,1" ++ [44]) by (vm_compute; reflexivity).
  split; [exact H1|]. split; [exact H2|].
  apply (load_checkpoint_trailing_comma _ _ _ H1 H2).
Defined.


Lemma save_results_frame_witness :
  CHECKPOINT_FILE <> OUTPUT_FILE /\ CHECKPOINT_FILE <> FAIL_FILE /\
  CHECKPOINT_FILE <> LOG_FILE /\
  fs (save_results read_csv_ref to_csv_ref first_batch [] earlier_world).2
    !! CHECKPOINT_FILE = Some (py "0,1").
Proof.
  assert (Ho : CHECKPOINT_FILE <> OUTPUT_FILE)
    by (intros H; vm_compute in H; discriminate).
  assert (Hf : CHECKPOINT_FILE <> FAIL_FILE)
    by (intros H; vm_compute in H; discriminate).
  assert (Hl : CHECKPOINT_FILE <> LOG_FILE)
    by (intros H; vm_compute in H; discriminate).
  split; [exact Ho|]. split; [exact Hf|]. split; [exact Hl|].
  rewrite (proj1 (save_results_frame read_csv_ref to_csv_ref first_batch []
                    earlier_world CHECKPOINT_FILE Ho Hf Hl)).
  vm_compute. reflexivity.
Defined.


Lemma run_partitions_dispatched_witness :
  load_checkpoint empty_world = Ok (∅ : gset Z) /\
  exists w',
    process_sentences_concurrently json_loads_ref py_repr_ref elements
      two_sentences 0 false sample_schedule empty_world
    = Some (Ok ([generation_record (py "B")
                   (VStr (py "final text" ++ [NEWLINE] ++ py "with a break"))],
                [failure_record (py "A")]), w') /\
    exists succeeded failed,
      succeeded ++ failed ≡ₚ to_process two_sentences 0 ∅ /\
      Forall2 (fun r item => exists text, r = generation_record item.2 text)
              [generation_record (py "B")
                 (VStr (py "final text" ++ [NEWLINE] ++ py "with a break"))]
              succeeded /\
      [failure_record (py "A")] = (fun item => failure_record item.2) <$> failed.
Proof.
  assert (Hload : load_checkpoint empty_world = Ok (∅ : gset Z))
    by (vm_compute; reflexivity).
  assert (Hout : fst <$> process_sentences_concurrently json_loads_ref py_repr_ref
                           elements two_sentences 0 false sample_schedule empty_world
                 = Some (Ok ([generation_record (py "B")
                                (VStr (py "final text" ++ [NEWLINE] ++ py "with a break"))],
                             [failure_record (py "A")])))
    by (vm_compute; reflexivity).
  split; [exact Hload|].
  destruct (process_sentences_concurrently json_loads_ref py_repr_ref elements
              two_sentences 0 false sample_schedule empty_world)
    as [[out w']|] eqn:Hrun; [|discriminate].
  cbn in Hout. injection Hout as ->.
  exists w'. split; [reflexivity|].
  exact (run_partitions_dispatched json_loads_ref py_repr_ref elements
           two_sentences 0 false sample_schedule empty_world ∅ _ _ w' Hload Hrun).
Defined.

Lemma checkpoint_after_run_witness :
  (forall X : gset Z, elements X ≡ₚ elements X) /\
  load_checkpoint empty_world = Ok (∅ : gset Z) /\
  exists w',
    process_sentences_concurrently json_loads_ref py_repr_ref elements
      two_sentences 0 false sample_schedule empty_world
    = Some (Ok ([generation_record (py "B")
                   (VStr (py "final text" ++ [NEWLINE] ++ py "with a break"))],
                [failure_record (py "A")]), w') /\
    exists succeeded : list (Z * pystr),
      load_checkpoint w' = Ok (∅ ∪ list_to_set (fst <$> succeeded)) /\
      size (∅ ∪ list_to_set (fst <$> succeeded) : gset Z) = 1%nat.
Proof.
  assert (Hload : load_checkpoint empty_world = Ok (∅ : gset Z))
    by (vm_compute; reflexivity).
  assert (Hout : fst <$> process_sentences_concurrently json_loads_ref py_repr_ref
                           elements two_sentences 0 false sample_schedule empty_world
                 = Some (Ok ([generation_record (py "B")
                                (VStr (py "final text" ++ [NEWLINE] ++ py "with a break"))],
                             [failure_record (py "A")])))
    by (vm_compute; reflexivity).
  split; [reflexivity|]. split; [exact Hload|].
  destruct (process_sentences_concurrently json_loads_ref py_repr_ref elements
              two_sentences 0 false sample_schedule empty_world)
    as [[out w']|] eqn:Hrun; [|discriminate].
  cbn in Hout. injection Hout as ->.
  exists w'. split; [reflexivity|].
  destruct (checkpoint_after_run json_loads_ref py_repr_ref elements
              two_sentences 0 sample_schedule empty_world ∅ _ _ w'
              (fun X => reflexivity (elements X)) Hload Hrun)
    as (succeeded & _ & _ & Hafter & Hsize & _).
  exists succeeded. split; [exact Hafter|]. rewrite Hsize. reflexivity.
Defined.

Lemma rerun_retries_failures_witness :
  (forall X : gset Z, elements X ≡ₚ elements X) /\
  load_checkpoint empty_world = Ok (∅ : gset Z) /\
  exists w',
    process_sentences_concurrently json_loads_ref py_repr_ref elements
      two_sentences 0 false sample_schedule empty_world
    = Some (Ok ([generation_record (py "B")
                   (VStr (py "final text" ++ [NEWLINE] ++ py "with a break"))],
                [failure_record (py "A")]), w') /\
    exists completed' : gset Z,
      load_checkpoint w' = Ok completed' /\
      (fun item => failure_record item.2) <$> to_process two_sentences 0 completed'
      ≡ₚ [failure_record (py "A")].
Proof.
  assert (Hload : load_checkpoint empty_world = Ok (∅ : gset Z))
    by (vm_compute; reflexivity).
  assert (Hout : fst <$> process_sentences_concurrently json_loads_ref py_repr_ref
                           elements two_sentences 0 false sample_schedule empty_world
                 = Some (Ok ([generation_record (py "B")
                                (VStr (py "final text" ++ [NEWLINE] ++ py "with a break"))],
                             [failure_record (py "A")])))
    by (vm_compute; reflexivity).
  split; [reflexivity|]. split; [exact Hload|].
  destruct (process_sentences_concurrently json_loads_ref py_repr_ref elements
              two_sentences 0 false sample_schedule empty_world)
    as [[out w']|] eqn:Hrun; [|discriminate].
  cbn in Hout. injection Hout as ->.
  exists w'. split; [reflexivity|].
  exact (rerun_retries_failures json_loads_ref py_repr_ref elements
           two_sentences 0 sample_schedule empty_world ∅ _ _ w'
           (fun X => reflexivity (elements X)) Hload Hrun).
Defined.

Lemma corrupt_checkpoint_stops_run_witness :
  fs trailing_comma_world !! CHECKPOINT_FILE = Some (py "0,1,") /\
  strip (py "0,1,") = py "0,1" ++ [44] /\
  exists e,
    process_sentences_concurrently json_loads_ref py_repr_ref elements
      two_sentences 0 false sample_schedule trailing_comma_world
    = Some (Raise e, trailing_comma_world) /\
    exn_class_of e = ValueError.
Proof.
  assert (Hfile : fs trailing_comma_world !! CHECKPOINT_FILE = Some (py "0,1,"))
    by (vm_compute; reflexivity).
  assert (Hstrip : strip (py "0,1,") = py "0,1" ++ [44])
    by (vm_compute; reflexivity).
  split; [exact Hfile|]. split; [exact Hstrip|].
  exact (corrupt_checkpoint_stops_run json_loads_ref py_repr_ref elements
           two_sentences 0 sample_schedule trailing_comma_world _ _ Hfile Hstrip).
Defined.


Lemma main_leaves_other_files_witness :
  exists e w' out,
    main json_loads_ref py_repr_ref elements read_csv_ref to_csv_ref
      select_weight_ref sentence_column_ref (py "1") sample_schedule source_world
    = Some (e, w', out) /\
    fs w' !! SOURCE_FILE = fs source_world !! SOURCE_FILE.
Proof.
  destruct (main json_loads_ref py_repr_ref elements read_csv_ref to_csv_ref
              select_weight_ref sentence_column_ref (py "1") sample_schedule
              source_world)
    as [[[e w'] out]|] eqn:Hmain; [|vm_compute in Hmain; discriminate].
  exists e, w', out. split; [reflexivity|].
  apply (main_leaves_other_files json_loads_ref py_repr_ref elements read_csv_ref
           to_csv_ref select_weight_ref sentence_column_ref (py "1")
           sample_schedule source_world e w' out SOURCE_FILE Hmain);
    intros H; vm_compute in H; discriminate.
Defined.

Lemma retry_keeps_checkpoint_and_cache_witness :
  strip (py "2") = py "2" /\
  exists e w' out,
    main json_loads_ref py_repr_ref elements read_csv_ref to_csv_ref
      select_weight_ref sentence_column_ref (py "2") sample_schedule retry_world
    = Some (e, w', out) /\
    fs w' !! CHECKPOINT_FILE = Some (py "0,1").
Proof.
  assert (Hchoice : strip (py "2") = py "2") by (vm_compute; reflexivity).
  split; [exact Hchoice|].
  destruct (main json_loads_ref py_repr_ref elements read_csv_ref to_csv_ref
              select_weight_ref sentence_column_ref (py "2") sample_schedule
              retry_world)
    as [[[e w'] out]|] eqn:Hmain; [|vm_compute in Hmain; discriminate].
  exists e, w', out. split; [reflexivity|].
  rewrite (proj1 (retry_keeps_checkpoint_and_cache json_loads_ref py_repr_ref
                    elements read_csv_ref to_csv_ref select_weight_ref
                    sentence_column_ref (py "2") sample_schedule retry_world
                    e w' out Hchoice Hmain)).
  vm_compute. reflexivity.
Defined.

Lemma main_without_work_witness :
  strip (py "3") = py "3" /\
  read_csv_ref (py "自我肯定语" ++ [NEWLINE] ++ py "A" ++ [NEWLINE] ++ py "B" ++ [NEWLINE])
  = Ok [failure_record (py "A"); failure_record (py "B")] /\
  load_checkpoint resumed_world = Ok (list_to_set [0; 1]%Z) /\
  exists message,
    main json_loads_ref py_repr_ref elements read_csv_ref to_csv_ref
      select_weight_ref sentence_column_ref (py "3") sample_schedule resumed_world
    = Some (Returned, resumed_world, MENU ++ [message]).
Proof.
  assert (Hchoice : strip (py "3") = py "3") by (vm_compute; reflexivity).
  assert (Hload : load_checkpoint resumed_world = Ok (list_to_set [0; 1]%Z))
    by (vm_compute; reflexivity).
  assert (Hfile : fs resumed_world !! CACHE_FILE
                  = Some (py "自我肯定语" ++ [NEWLINE] ++ py "A" ++ [NEWLINE]
                            ++ py "B" ++ [NEWLINE]))
    by (vm_compute; reflexivity).
  assert (Hread : read_csv_ref (py "自我肯定语" ++ [NEWLINE] ++ py "A" ++ [NEWLINE]
                                  ++ py "B" ++ [NEWLINE])
                  = Ok [failure_record (py "A"); failure_record (py "B")])
    by (vm_compute; reflexivity).
  assert (Hfull : (length [failure_record (py "A"); failure_record (py "B")]
                   <= size (list_to_set [0; 1]%Z : gset Z))%nat)
    by (vm_compute; lia).
  split; [exact Hchoice|]. split; [exact Hread|]. split; [exact Hload|].
  apply (main_without_work json_loads_ref py_repr_ref elements read_csv_ref
           to_csv_ref select_weight_ref sentence_column_ref (py "3")
           sample_schedule resumed_world).
  right. right. left. split; [exact Hchoice|].
  eexists _, _, _. split; [exact Hfile|]. split; [exact Hread|].
  split; [exact Hload|exact Hfull].
Defined.

Lemma fresh_run_caches_selection_witness :
  strip (py "1") = py "1" /\
  exists df0 e w' out,
    pd_read_csv read_csv_ref SOURCE_FILE source_world = Ok df0 /\
    main json_loads_ref py_repr_ref elements read_csv_ref to_csv_ref
      select_weight_ref sentence_column_ref (py "1") sample_schedule source_world
    = Some (e, w', out) /\
    fs w' !! CACHE_FILE
    = Some (py "自我肯定语,权重" ++ [NEWLINE] ++ py "A,3" ++ [NEWLINE]
              ++ py "B,3" ++ [NEWLINE]).
Proof.
  assert (Hchoice : strip (py "1") = py "1") by (vm_compute; reflexivity).
  assert (Hcache : (fun df => to_csv_ref df)
                     <$> (pd_read_csv read_csv_ref SOURCE_FILE source_world
                            ≫= select_weight_ref)
                   = Ok (py "自我肯定语,权重" ++ [NEWLINE] ++ py "A,3" ++ [NEWLINE]
                           ++ py "B,3" ++ [NEWLINE]))
    by (vm_compute; reflexivity).
  split; [exact Hchoice|].
  destruct (pd_read_csv read_csv_ref SOURCE_FILE source_world) as [df0|e0] eqn:Hread;
    [|discriminate Hcache].
  destruct (main json_loads_ref py_repr_ref elements read_csv_ref to_csv_ref
              select_weight_ref sentence_column_ref (py "1") sample_schedule
              source_world)
    as [[[e w'] out]|] eqn:Hmain; [|vm_compute in Hmain; discriminate].
  exists df0, e, w', out. split; [reflexivity|]. split; [reflexivity|].
  rewrite (fresh_run_caches_selection json_loads_ref py_repr_ref elements
             read_csv_ref to_csv_ref select_weight_ref sentence_column_ref
             (py "1") sample_schedule source_world df0 _ e w' out
             Hchoice Hread eq_refl Hmain).
  unfold select_weight_ref in Hcache.
  cbn [mbind outcome_bind fmap outcome_fmap] in Hcache.
  injection Hcache as ->. reflexivity.
Defined.

Lemma retry_rewrites_failure_table_witness :
  strip (py "2") = py "2" /\
  read_csv_ref (py "自我肯定语" ++ [NEWLINE] ++ py "A" ++ [NEWLINE] ++ py "B" ++ [NEWLINE])
  = Ok [failure_record (py "A"); failure_record (py "B")] /\
  sentence_column_ref [failure_record (py "A"); failure_record (py "B")]
  = Ok two_sentences /\
  exists w' out w1,
    main json_loads_ref py_repr_ref elements read_csv_ref to_csv_ref
      select_weight_ref sentence_column_ref (py "2") sample_schedule retry_world
    = Some (Returned, w', out) /\
    process_sentences_concurrently json_loads_ref py_repr_ref elements
      two_sentences 0 true sample_schedule retry_world
    = Some (Ok ([generation_record (py "B")
                   (VStr (py "final text" ++ [NEWLINE] ++ py "with a break"))],
                [failure_record (py "A")]), w1) /\
    fs w' !! FAIL_FILE = Some (py "自我肯定语" ++ [NEWLINE] ++ py "A" ++ [NEWLINE]).
Proof.
  assert (Hchoice : strip (py "2") = py "2") by (vm_compute; reflexivity).
  assert (Hfile : fs retry_world !! FAIL_FILE
                  = Some (py "自我肯定语" ++ [NEWLINE] ++ py "A" ++ [NEWLINE]
                            ++ py "B" ++ [NEWLINE]))
    by (vm_compute; reflexivity).
  assert (Hread : read_csv_ref (py "自我肯定语" ++ [NEWLINE] ++ py "A" ++ [NEWLINE]
                                  ++ py "B" ++ [NEWLINE])
                  = Ok [failure_record (py "A"); failure_record (py "B")])
    by (vm_compute; reflexivity).
  assert (Hcolumn : sentence_column_ref [failure_record (py "A"); failure_record (py "B")]
                    = Ok two_sentences)
    by (vm_compute; reflexivity).
  assert (Hend : (fun r => r.1.1)
                   <$> main json_loads_ref py_repr_ref elements read_csv_ref to_csv_ref
                         select_weight_ref sentence_column_ref (py "2")
                         sample_schedule retry_world
                 = Some Returned)
    by (vm_compute; reflexivity).
  assert (Hout : fst <$> process_sentences_concurrently json_loads_ref py_repr_ref
                           elements two_sentences 0 true sample_schedule retry_world
                 = Some (Ok ([generation_record (py "B")
                                (VStr (py "final text" ++ [NEWLINE] ++ py "with a break"))],
                             [failure_record (py "A")])))
    by (vm_compute; reflexivity).
  split; [exact Hchoice|]. split; [exact Hread|]. split; [exact Hcolumn|].
  destruct (main json_loads_ref py_repr_ref elements read_csv_ref to_csv_ref
              select_weight_ref sentence_column_ref (py "2") sample_schedule
              retry_world)
    as [[[e w'] out]|] eqn:Hmain; [|discriminate].
  cbn in Hend. injection Hend as ->.
  destruct (retry_rewrites_failure_table json_loads_ref py_repr_ref elements
              read_csv_ref to_csv_ref select_weight_ref sentence_column_ref (py "2")
              sample_schedule retry_world _ _ _ w' out
              Hchoice Hfile Hread Hcolumn Hmain)
    as (results & fail_data & w1 & succeeded & failed & Hrun & _ & _ & _ & Hfail).
  rewrite Hrun in Hout. cbn in Hout. injection Hout as -> ->.
  exists w', out, w1. split; [reflexivity|]. split; [exact Hrun|].
  rewrite Hfail. vm_compute. reflexivity.
Defined.

Lemma run_request_count_witness :
  exists w' late,
    process_sentences_concurrently json_loads_ref py_repr_ref elements
      two_sentences 0 false sample_schedule empty_world
    = Some (Ok ([generation_record (py "B")
                   (VStr (py "final text" ++ [NEWLINE] ++ py "with a break"))],
                [failure_record (py "A")]), w') /\
    length (calls w') = (0 + 2 * 1 + late)%nat /\
    (1 <= late)%nat /\ (late <= 2 * 1)%nat.
Proof.
  assert (Hout : fst <$> process_sentences_concurrently json_loads_ref py_repr_ref
                           elements two_sentences 0 false sample_schedule empty_world
                 = Some (Ok ([generation_record (py "B")
                                (VStr (py "final text" ++ [NEWLINE] ++ py "with a break"))],
                             [failure_record (py "A")])))
    by (vm_compute; reflexivity).
  destruct (process_sentences_concurrently json_loads_ref py_repr_ref elements
              two_sentences 0 false sample_schedule empty_world)
    as [[out w']|] eqn:Hrun; [|discriminate].
  cbn in Hout. injection Hout as ->.
  destruct (run_request_count json_loads_ref py_repr_ref elements
              two_sentences 0 false sample_schedule empty_world _ _ w' Hrun)
    as (late & Htotal & Hlate).
  exists w', late. split; [reflexivity|]. split; [exact Htotal|exact Hlate].
Defined.
